(** * The state-synchronisation core of the weather dashboard (App.tsx)

    A shallow embedding of the [App] component: its React state, the two
    persisted settings, the forecast effect with its per-cycle activity
    flag and repeating timer, the search handlers, and the page-reload
    timer.  Asynchronous code is split at its [await]: the part run when
    the call is made, and the part run when the request settles.

    Conventions.
    - A JavaScript string is a Rocq [string]; a character is one code unit
      in the range 0..255.
    - A JavaScript number is a binary64 [float].
    - An object that is compared by identity carries its address ([Ref]).
    - [console.error] only logs and is left out. *)

From Stdlib Require Import Floats Ascii String.
From stdpp Require Import base option strings list gmap.

Set Warnings "-inexact-float".
Set Default Proof Using "Type".

Open Scope string_scope.
Open Scope list_scope.
Open Scope nat_scope.

(** ** JavaScript values *)

(** What a [throw] carries: an [Error] instance with its message, or any
    other value. *)
Inductive Thrown : Type :=
| ErrorObject (message : string)
| OtherValue (shown : string).

(** [error instanceof Error ? error.message : fallback] *)
Definition messageOr (fallback : string) (error : Thrown) : string :=
  match error with
  | ErrorObject message => message
  | OtherValue _ => fallback
  end.

(** The result of running a block that may throw. *)
Inductive Completion (A : Type) : Type :=
| Normal (value : A)
| Throw (error : Thrown).
Arguments Normal {A} value.
Arguments Throw {A} error.

#[global] Instance Completion_ret : MRet Completion := @Normal.
#[global] Instance Completion_bind : MBind Completion :=
  fun A B (k : A -> Completion B) (m : Completion A) =>
    match m with
    | Normal v => k v
    | Throw e => Throw e
    end.

(** [try { body } catch (error) { handler }] *)
Definition try_catch {A} (body : Completion A) (handler : Thrown -> Completion A)
  : Completion A :=
  match body with
  | Normal v => Normal v
  | Throw e => handler e
  end.

(** How a settled promise ends. *)
Inductive Outcome (A : Type) : Type :=
| Fulfilled (value : A)
| Rejected (error : Thrown).
Arguments Fulfilled {A} value.
Arguments Rejected {A} error.

(** Truthiness of a string: only the empty string is falsy. *)
Definition truthy (s : string) : bool :=
  match s with
  | EmptyString => false
  | String _ _ => true
  end.

(** An object is always truthy. *)
Definition truthy_object {A} (_ : A) : bool := true.

(** White space removed by [String.prototype.trim], among the code units
    0..255: TAB, LF, VT, FF, CR, SPACE and NBSP. *)
Definition is_whitespace (c : ascii) : bool :=
  let n := nat_of_ascii c in
  ((9 <=? n) && (n <=? 13)) || (n =? 32) || (n =? 160).

Fixpoint trimStart (s : string) : string :=
  match s with
  | EmptyString => EmptyString
  | String c s' => if is_whitespace c then trimStart s' else s
  end.

Fixpoint trimEnd (s : string) : string :=
  match s with
  | EmptyString => EmptyString
  | String c s' =>
      match trimEnd s' with
      | EmptyString => if is_whitespace c then EmptyString else String c EmptyString
      | t => String c t
      end
  end.

Definition trim (s : string) : string := trimEnd (trimStart s).

(** An object with identity: React compares state and effect dependencies
    with [Object.is], which for objects is address equality. *)
Record Ref (A : Type) : Type := mkRef { addr : nat; obj : A }.
Arguments mkRef {A} addr obj.
Arguments addr {A} r.
Arguments obj {A} r.

(** ** Data model (types/weather) *)

Inductive MeasurementSystem : Type := metric | imperial.

#[global] Instance MeasurementSystem_eq_dec : EqDecision MeasurementSystem.
Proof. solve_decision. Defined.

Module LocationMatch.
Record t : Type := mk {
  id : string;
  name : string;
  admin1 : option string;
  country : string;
  latitude : float;
  longitude : float;
  timezone : string;
}.
End LocationMatch.

(** Modelled from the spec: the declarations of [types/weather] are not
    among the sources.  The records below carry the fields that the spec
    (sections 3 and 6) lists and that the components read. *)
Module CurrentConditions.
Record t : Type := mk {
  temperature : float;
  apparentTemperature : float;
  humidity : float;
  windSpeed : float;
  precipitation : float;
  icon : string;
  label : string;
  observationTime : string;
}.
End CurrentConditions.

Module HourlyForecastPoint.
Record t : Type := mk {
  time : string;
  hourLabel : string;
  icon : string;
  label : string;
  temperature : float;
}.
End HourlyForecastPoint.

Module UnitLabels.
Record t : Type := mk { wind : string; precipitation : string }.
End UnitLabels.

Module WeatherData.
Record t : Type := mk {
  location : LocationMatch.t;
  current : CurrentConditions.t;
  daily : list string;
  hourlyByDay : gmap string (list HourlyForecastPoint.t);
  dayOrder : list string;
  units : UnitLabels.t;
}.
End WeatherData.

Inductive SearchStatus : Type :=
| search_idle | search_loading | search_error | search_no_results.

Inductive WeatherStatus : Type :=
| weather_idle | weather_loading | weather_ready | weather_error.

Definition DEFAULT_LOCATION : LocationMatch.t :=
  {| LocationMatch.id := "5391959";
     LocationMatch.name := "San Francisco";
     LocationMatch.admin1 := Some "California";
     LocationMatch.country := "United States";
     LocationMatch.latitude := 37.7749%float;
     LocationMatch.longitude := (-122.4194)%float;
     LocationMatch.timezone := "America/Los_Angeles" |}.

(** ** localStorage *)

(** The browser's key-value store.  Every access throws when storage is
    disabled; a write throws when it would exceed the quota, counted in
    characters of keys and values. *)
Record Storage : Type := mkStorage {
  st_enabled : bool;
  st_quota : nat;
  st_items : gmap string string;
}.

Definition SecurityError : Thrown := ErrorObject "The operation is insecure.".
Definition QuotaExceededError : Thrown := ErrorObject "The quota has been exceeded.".

Definition usage (items : gmap string string) : nat :=
  map_fold (fun k v acc => String.length k + String.length v + acc) 0 items.

Definition getItem (ls : Storage) (key : string) : Completion (option string) :=
  if st_enabled ls then Normal (st_items ls !! key) else Throw SecurityError.

Definition setItem (ls : Storage) (key value : string) : Completion Storage :=
  if st_enabled ls then
    let items := <[key := value]> (st_items ls) in
    if usage items <=? st_quota ls
    then Normal (mkStorage (st_enabled ls) (st_quota ls) items)
    else Throw QuotaExceededError
  else Throw SecurityError.

(** [`${location.name}${location.country ? `, ${location.country}` : ''}`] *)
Definition locationString (location : LocationMatch.t) : string :=
  LocationMatch.name location
  +:+ (if truthy (LocationMatch.country location)
       then ", " +:+ LocationMatch.country location
       else "").

(** [JSON.parse] and [JSON.stringify] belong to the platform the page
    runs on.  The saved value is read back at the type the component
    declares for it. *)
Record Platform : Type := mkPlatform {
  JSON_parse : string -> Completion LocationMatch.t;
  JSON_stringify : LocationMatch.t -> string;
}.

(** ** The component's state *)

(** The ten [useState] cells of [App]. *)
Record ReactState : Type := mkReactState {
  searchTerm : string;
  searchResults : list LocationMatch.t;
  searchStatus : SearchStatus;
  searchError : option string;
  selectedLocation : Ref LocationMatch.t;
  units : MeasurementSystem;
  weatherData : option WeatherData.t;
  weatherStatus : WeatherStatus;
  weatherError : option string;
  selectedDay : option string;
}.

(** A network call that has been made and has not settled yet, with what
    its continuation captured: [handleSearch] awaits [geocodeLocation],
    [fetchWeather] of a cycle awaits [fetchWeatherForecast]. *)
Inductive Request : Type :=
| geocodeLocation (query : string)
| fetchWeatherForecast (cycle : nat) (isAutoRefresh : bool)
    (location : Ref LocationMatch.t) (system : MeasurementSystem).

(** One run of the forecast effect: its two local variables and the
    [selectedLocation] and [units] its closures captured. *)
Record Cycle : Type := mkCycle {
  isActive : bool;
  intervalId : option nat;
  cy_location : Ref LocationMatch.t;
  cy_units : MeasurementSystem;
}.

(** What a repeating timer runs. *)
Inductive Callback : Type :=
| autoRefresh (cycle : nat)
| reloadPage.

Record Interval : Type := mkInterval {
  iv_id : nat;
  iv_callback : Callback;
  iv_period : N;
  iv_due : N;
}.

(** What the page holds besides the React state: the platform, storage, the effect
    runs, the timers (and the handle the reload effect keeps), the requests
    in flight, the log of every network call made, the clock and the
    allocator of object addresses. *)
Record Runtime : Type := mkRuntime {
  platform : Platform;
  localStorage : Storage;
  cycles : list Cycle;
  intervals : list Interval;
  nextIntervalId : nat;
  reloadInterval : option nat;
  pending : gmap nat Request;
  nextRequestId : nat;
  issued : list Request;
  now : N;
  nextAddr : nat;
  mounted : bool;
}.

Record App : Type := mkApp { react :> ReactState; runtime :> Runtime }.

Notation "a |> f" := (f a) (at level 45, left associativity, only parsing).

Definition with_react (f : ReactState -> ReactState) (a : App) : App :=
  mkApp (f (react a)) (runtime a).
Definition with_runtime (f : Runtime -> Runtime) (a : App) : App :=
  mkApp (react a) (f (runtime a)).

(** The state setters returned by [useState]. *)
Definition setSearchTerm (v : string) : App -> App :=
  with_react (fun r =>
    mkReactState v (searchResults r) (searchStatus r) (searchError r)
      (selectedLocation r) (units r) (weatherData r) (weatherStatus r)
      (weatherError r) (selectedDay r)).
Definition setSearchResults (v : list LocationMatch.t) : App -> App :=
  with_react (fun r =>
    mkReactState (searchTerm r) v (searchStatus r) (searchError r)
      (selectedLocation r) (units r) (weatherData r) (weatherStatus r)
      (weatherError r) (selectedDay r)).
Definition setSearchStatus (v : SearchStatus) : App -> App :=
  with_react (fun r =>
    mkReactState (searchTerm r) (searchResults r) v (searchError r)
      (selectedLocation r) (units r) (weatherData r) (weatherStatus r)
      (weatherError r) (selectedDay r)).
Definition setSearchError (v : option string) : App -> App :=
  with_react (fun r =>
    mkReactState (searchTerm r) (searchResults r) (searchStatus r) v
      (selectedLocation r) (units r) (weatherData r) (weatherStatus r)
      (weatherError r) (selectedDay r)).
Definition setSelectedLocation (v : Ref LocationMatch.t) : App -> App :=
  with_react (fun r =>
    mkReactState (searchTerm r) (searchResults r) (searchStatus r) (searchError r) v
      (units r) (weatherData r) (weatherStatus r) (weatherError r) (selectedDay r)).
Definition setUnits (v : MeasurementSystem) : App -> App :=
  with_react (fun r =>
    mkReactState (searchTerm r) (searchResults r) (searchStatus r) (searchError r)
      (selectedLocation r) v (weatherData r) (weatherStatus r) (weatherError r)
      (selectedDay r)).
Definition setWeatherData (v : option WeatherData.t) : App -> App :=
  with_react (fun r =>
    mkReactState (searchTerm r) (searchResults r) (searchStatus r) (searchError r)
      (selectedLocation r) (units r) v (weatherStatus r) (weatherError r)
      (selectedDay r)).
Definition setWeatherStatus (v : WeatherStatus) : App -> App :=
  with_react (fun r =>
    mkReactState (searchTerm r) (searchResults r) (searchStatus r) (searchError r)
      (selectedLocation r) (units r) (weatherData r) v (weatherError r)
      (selectedDay r)).
Definition setWeatherError (v : option string) : App -> App :=
  with_react (fun r =>
    mkReactState (searchTerm r) (searchResults r) (searchStatus r) (searchError r)
      (selectedLocation r) (units r) (weatherData r) (weatherStatus r) v
      (selectedDay r)).
Definition setSelectedDay (v : option string) : App -> App :=
  with_react (fun r =>
    mkReactState (searchTerm r) (searchResults r) (searchStatus r) (searchError r)
      (selectedLocation r) (units r) (weatherData r) (weatherStatus r)
      (weatherError r) v).

(** Updates of single parts of the runtime. *)
Definition put_localStorage (v : Storage) : App -> App :=
  with_runtime (fun r =>
    mkRuntime (platform r) v (cycles r) (intervals r) (nextIntervalId r)
      (reloadInterval r) (pending r) (nextRequestId r) (issued r) (now r) (nextAddr r)
      (mounted r)).
Definition put_cycles (v : list Cycle) : App -> App :=
  with_runtime (fun r =>
    mkRuntime (platform r) (localStorage r) v (intervals r) (nextIntervalId r)
      (reloadInterval r) (pending r) (nextRequestId r) (issued r) (now r) (nextAddr r)
      (mounted r)).
Definition put_intervals (v : list Interval) : App -> App :=
  with_runtime (fun r =>
    mkRuntime (platform r) (localStorage r) (cycles r) v (nextIntervalId r)
      (reloadInterval r) (pending r) (nextRequestId r) (issued r) (now r) (nextAddr r)
      (mounted r)).
Definition put_nextIntervalId (v : nat) : App -> App :=
  with_runtime (fun r =>
    mkRuntime (platform r) (localStorage r) (cycles r) (intervals r) v
      (reloadInterval r) (pending r) (nextRequestId r) (issued r) (now r) (nextAddr r)
      (mounted r)).
Definition put_reloadInterval (v : option nat) : App -> App :=
  with_runtime (fun r =>
    mkRuntime (platform r) (localStorage r) (cycles r) (intervals r)
      (nextIntervalId r) v (pending r) (nextRequestId r) (issued r) (now r)
      (nextAddr r) (mounted r)).
Definition put_pending (v : gmap nat Request) : App -> App :=
  with_runtime (fun r =>
    mkRuntime (platform r) (localStorage r) (cycles r) (intervals r)
      (nextIntervalId r) (reloadInterval r) v (nextRequestId r) (issued r) (now r)
      (nextAddr r) (mounted r)).
Definition put_nextRequestId (v : nat) : App -> App :=
  with_runtime (fun r =>
    mkRuntime (platform r) (localStorage r) (cycles r) (intervals r)
      (nextIntervalId r) (reloadInterval r) (pending r) v (issued r) (now r)
      (nextAddr r) (mounted r)).
Definition put_issued (v : list Request) : App -> App :=
  with_runtime (fun r =>
    mkRuntime (platform r) (localStorage r) (cycles r) (intervals r)
      (nextIntervalId r) (reloadInterval r) (pending r) (nextRequestId r) v (now r)
      (nextAddr r) (mounted r)).
Definition put_now (v : N) : App -> App :=
  with_runtime (fun r =>
    mkRuntime (platform r) (localStorage r) (cycles r) (intervals r)
      (nextIntervalId r) (reloadInterval r) (pending r) (nextRequestId r) (issued r) v
      (nextAddr r) (mounted r)).
Definition put_nextAddr (v : nat) : App -> App :=
  with_runtime (fun r =>
    mkRuntime (platform r) (localStorage r) (cycles r) (intervals r)
      (nextIntervalId r) (reloadInterval r) (pending r) (nextRequestId r) (issued r)
      (now r) v (mounted r)).
Definition put_mounted (v : bool) : App -> App :=
  with_runtime (fun r =>
    mkRuntime (platform r) (localStorage r) (cycles r) (intervals r)
      (nextIntervalId r) (reloadInterval r) (pending r) (nextRequestId r) (issued r)
      (now r) (nextAddr r) v).

(** ** Persisted settings *)

(** The body of [loadSavedLocation]'s [try]: [Some v] when it returned [v],
    [None] when control fell through. *)
Definition loadSavedLocation_try (p : Platform) (ls : Storage)
  : Completion (option LocationMatch.t) :=
  saved ← getItem ls "selectedLocation";
  match saved with
  | Some text => if truthy text then v ← JSON_parse p text; mret (Some v) else mret None
  | None => mret None
  end.

Definition loadSavedLocation (p : Platform) (ls : Storage) : Completion LocationMatch.t :=
  returned ← try_catch (loadSavedLocation_try p ls) (fun error => mret None);
  match returned with
  | Some v => mret v
  | None => mret DEFAULT_LOCATION
  end.

Definition loadSavedSearchTerm_try (ls : Storage) : Completion (option string) :=
  saved ← getItem ls "searchTerm";
  match saved with
  | Some text => if truthy text then mret (Some text) else mret None
  | None => mret None
  end.

Definition loadSavedSearchTerm (ls : Storage) : Completion string :=
  returned ← try_catch (loadSavedSearchTerm_try ls) (fun error => mret None);
  match returned with
  | Some v => mret v
  | None =>
      mret (LocationMatch.name DEFAULT_LOCATION +:+ ", "
            +:+ LocationMatch.country DEFAULT_LOCATION)
  end.


(** ** Network calls and timers *)

(** Make a network call: it is logged, and pending until it settles. *)
Definition request (r : Request) (a : App) : App :=
  a |> put_pending (<[nextRequestId a := r]> (pending a))
    |> put_issued (issued a ++ [r])
    |> put_nextRequestId (S (nextRequestId a)).

(** [setInterval(callback, period)]: the handle is [nextIntervalId];
    handles start at 1. *)
Definition setInterval (callback : Callback) (period : N) (a : App) : App :=
  a |> put_intervals
         (intervals a ++ [mkInterval (nextIntervalId a) callback period (now a + period)%N])
    |> put_nextIntervalId (S (nextIntervalId a)).

Definition clearInterval (iid : nat) (a : App) : App :=
  a |> put_intervals (filter (fun iv => iv_id iv <> iid) (intervals a)).

(** ** handleLocationSelection *)

(** The [try] block of [handleLocationSelection]: a write that throws ends
    the block, and what was written before it stays written. *)
Definition saveSelection (p : Platform) (newLocation : LocationMatch.t)
  (text : string) (ls : Storage) : Storage :=
  match setItem ls "selectedLocation" (JSON_stringify p newLocation) with
  | Throw error => ls
  | Normal ls1 =>
      match setItem ls1 "searchTerm" text with
      | Throw error => ls1
      | Normal ls2 => ls2
      end
  end.

Definition handleLocationSelection (location : LocationMatch.t) (a : App) : App :=
  let newLocation :=
    {| LocationMatch.id := LocationMatch.id location;
       LocationMatch.name := LocationMatch.name location;
       LocationMatch.country := LocationMatch.country location;
       LocationMatch.admin1 := LocationMatch.admin1 location;
       LocationMatch.latitude := LocationMatch.latitude location;
       LocationMatch.longitude := LocationMatch.longitude location;
       LocationMatch.timezone := LocationMatch.timezone location |} in
  let text := locationString newLocation in
  a |> put_nextAddr (S (nextAddr a))
    |> setSelectedLocation (mkRef (nextAddr a) newLocation)
    |> setSearchTerm text
    |> setSearchStatus search_idle
    |> setSearchResults []
    |> put_localStorage (saveSelection (platform a) newLocation text (localStorage a)).

(** ** handleSearch *)

(** Up to the [await]. *)
Definition handleSearch (a : App) : App :=
  let query := trim (searchTerm a) in
  if negb (truthy query) then
    a |> setSearchStatus search_no_results
      |> setSearchResults []
      |> setWeatherData None
      |> setWeatherStatus weather_idle
  else
    a |> setSearchStatus search_loading
      |> setSearchError None
      |> request (geocodeLocation query).

(** From the [await] on. *)
Definition handleSearch_settled (outcome : Outcome (list LocationMatch.t)) (a : App)
  : App :=
  match outcome with
  | Fulfilled results =>
      if length results =? 0 then
        a |> setSearchResults []
          |> setSearchStatus search_no_results
          |> setWeatherData None
          |> setWeatherStatus weather_idle
      else
        a |> setSearchResults results
          |> setSearchStatus search_idle
  | Rejected error =>
      a |> setSearchStatus search_error
        |> setSearchError (Some (messageOr "Unknown error" error))
        |> setWeatherData None
        |> setWeatherStatus weather_idle
  end.

(** ** The forecast effect: [useEffect(..., [selectedLocation, units])] *)

(** The value of [isActive] in the closures of cycle [c]. *)
Definition cycle_isActive (c : nat) (a : App) : bool :=
  match cycles a !! c with
  | Some cy => isActive cy
  | None => false
  end.

(** The cycle started last, whose cleanup React holds. *)
Definition current (a : App) : nat := pred (length (cycles a)).

(** [fetchWeather(isAutoRefresh)] of cycle [c], up to the [await]. *)
Definition fetchWeather (c : nat) (isAutoRefresh : bool) (a : App) : App :=
  match cycles a !! c with
  | None => a
  | Some cy =>
      if negb (truthy_object (cy_location cy)) then a else
      a |> (if negb isAutoRefresh then setWeatherStatus weather_loading else id)
        |> setWeatherError None
        |> request (fetchWeatherForecast c isAutoRefresh (cy_location cy) (cy_units cy))
  end.

(** [data.dayOrder[0] ?? null] *)
Definition firstDay (data : WeatherData.t) : option string :=
  head (WeatherData.dayOrder data).

(** The updater passed to [setSelectedDay] during auto-refresh. *)
Definition keepDay (data : WeatherData.t) (prevDay : option string) : option string :=
  match prevDay with
  | Some day =>
      if truthy day && bool_decide (day ∈ WeatherData.dayOrder data)
      then Some day
      else firstDay data
  | None => firstDay data
  end.

Definition updateSelectedDay (f : option string -> option string) (a : App) : App :=
  setSelectedDay (f (selectedDay a)) a.

(** [fetchWeather] of cycle [c], from the [await] on. *)
Definition fetchWeather_settled (c : nat) (isAutoRefresh : bool)
  (outcome : Outcome WeatherData.t) (a : App) : App :=
  match outcome with
  | Fulfilled data =>
      if negb (cycle_isActive c a) then a else
      a |> setWeatherData (Some data)
        |> (if negb isAutoRefresh
            then setSelectedDay (firstDay data)
            else updateSelectedDay (keepDay data))
        |> setWeatherStatus weather_ready
  | Rejected error =>
      if negb (cycle_isActive c a) then a else
      if negb isAutoRefresh then
        a |> setWeatherStatus weather_error
          |> setWeatherError (Some (messageOr "Unable to load forecast" error))
      else a
  end.

Definition set_intervalId (v : option nat) (cy : Cycle) : Cycle :=
  mkCycle (isActive cy) v (cy_location cy) (cy_units cy).

Definition set_isActive (v : bool) (cy : Cycle) : Cycle :=
  mkCycle v (intervalId cy) (cy_location cy) (cy_units cy).

(** The effect body: a new cycle, its initial fetch, its timer. *)
Definition weatherEffect (a : App) : App :=
  let c := length (cycles a) in
  a |> put_cycles (cycles a ++ [mkCycle true None (selectedLocation a) (units a)])
    |> fetchWeather c false
    |> (fun a' : App =>
          a' |> setInterval (autoRefresh c) 1000%N
             |> put_cycles (alter (set_intervalId (Some (nextIntervalId a'))) c (cycles a'))).

(** The function the effect returns, for cycle [c]. *)
Definition weatherCleanup (c : nat) (a : App) : App :=
  a |> put_cycles (alter (set_isActive false) c (cycles a))
    |> (match cycles a !! c ≫= intervalId with
        | Some iid => if negb (iid =? 0) then clearInterval iid else id
        | None => id
        end).

(** The timer callback of cycle [c]. *)
Definition autoRefreshTick (c : nat) (a : App) : App :=
  match cycles a !! c with
  | Some cy =>
      if isActive cy && truthy_object (cy_location cy) then fetchWeather c true a else a
  | None => a
  end.

(** ** The reload effect: [useEffect(..., [])] *)

Definition reloadEffect (a : App) : App :=
  a |> setInterval reloadPage 60000%N
    |> put_reloadInterval (Some (nextIntervalId a)).

Definition reloadCleanup (a : App) : App :=
  match reloadInterval a with
  | Some iid => clearInterval iid a
  | None => a
  end.

(** ** The page *)

(** The first render, at time [t]: the initial values of the state
    cells, before any effect has run.  The two loaders never throw
    ([loadSavedLocation_total], [loadSavedSearchTerm_total]), so their
    [Throw] branches are never taken. *)
Definition firstRender (p : Platform) (ls : Storage) (t : N) (log : list Request) : App :=
  let savedLocation :=
    match loadSavedLocation p ls with Normal v => v | Throw _ => DEFAULT_LOCATION end in
  let savedSearchTerm :=
    match loadSavedSearchTerm ls with Normal v => v | Throw _ => "" end in
  mkApp
    (mkReactState savedSearchTerm [] search_idle None (mkRef 0 savedLocation) metric
       None weather_idle None None)
    (mkRuntime p ls [] [] 1 None ∅ 0 log t 1 true).

(** The page once both effects have run for the first time. *)
Definition boot (p : Platform) (ls : Storage) (t : N) (log : list Request) : App :=
  firstRender p ls t log |> weatherEffect |> reloadEffect.

(** [window.location.reload()]: a new page over the same storage; what
    was in flight is gone with the old page. *)
Definition reload (a : App) : App :=
  boot (platform a) (localStorage a) (now a) (issued a).

(** One timer comes due. *)
Definition fire (iv : Interval) (a : App) : App :=
  match list_find (fun cur => iv_id cur = iv_id iv) (intervals a) with
  | Some (i, cur) =>
      if (iv_due cur =? now a)%N then
        let a1 :=
          a |> put_intervals
                 (<[i := mkInterval (iv_id cur) (iv_callback cur) (iv_period cur)
                           (iv_due cur + iv_period cur)%N]> (intervals a)) in
        match iv_callback cur with
        | autoRefresh c => autoRefreshTick c a1
        | reloadPage => reload a1
        end
      else a
  | None => a
  end.

(** One unit of time passes: the timers due at the new time run, in the
    order in which they were set. *)
Definition tick (a : App) : App :=
  let a1 := put_now (N.succ (now a)) a in
  foldl (fun acc iv => fire iv acc) a1 (intervals a1).

(** React re-runs the forecast effect, cleanup first, after a render in
    which one of its dependencies changed. *)
Definition depsChanged (before after : App) : bool :=
  negb (addr (selectedLocation before) =? addr (selectedLocation after))
  || negb (bool_decide (units before = units after)).

Definition commit (before after : App) : App :=
  if depsChanged before after
  then after |> weatherCleanup (current before) |> weatherEffect
  else after.

(** What a request settles with. *)
Inductive Response : Type :=
| geocoded (outcome : Outcome (list LocationMatch.t))
| forecast (outcome : Outcome WeatherData.t).

(** The continuation of the request resumes.  React ignores the state
    updates of a component that is no longer mounted, which is all that
    the continuation of [handleSearch] does. *)
Definition settle (rid : nat) (response : Response) (a : App) : App :=
  match pending a !! rid with
  | None => a
  | Some r =>
      let a' := put_pending (delete rid (pending a)) a in
      match r, response with
      | geocodeLocation _, geocoded outcome =>
          if mounted a then handleSearch_settled outcome a' else a'
      | fetchWeatherForecast c isAutoRefresh _ _, forecast outcome =>
          fetchWeather_settled c isAutoRefresh outcome a'
      | _, _ => a
      end
  end.

Definition unmount (a : App) : App :=
  a |> weatherCleanup (current a) |> reloadCleanup |> put_mounted false.

(** What can happen to the page: the six callbacks wired in the JSX
    ([onChange], [onSubmit] and [onSelectResult] of the search form, the
    retry button, [onChange] of the units menu, [onSelectDay] of the two
    forecast lists), a request that settles, time that passes, and the
    component being unmounted. *)
Inductive Event : Type :=
| Typed (text : string)
| Submitted
| ResultSelected (location : LocationMatch.t)
| TryAgain
| UnitsChanged (system : MeasurementSystem)
| DaySelected (day : string)
| Settled (rid : nat) (response : Response)
| Elapsed (dt : nat)
| Unmounted.

(** The callbacks themselves. *)
Definition handle (e : Event) (a : App) : App :=
  match e with
  | Typed text => setSearchTerm text a
  | Submitted => handleSearch a
  | ResultSelected location =>
      a |> handleLocationSelection location |> setSearchResults []
  | TryAgain => handleLocationSelection (obj (selectedLocation a)) a
  | UnitsChanged system => setUnits system a
  | DaySelected day => setSelectedDay (Some day) a
  | _ => a
  end.

(** One event.  A callback runs only while the component is mounted, and
    is followed by the render that may re-run the forecast effect. *)
Definition step (e : Event) (a : App) : App :=
  match e with
  | Settled rid response => settle rid response a
  | Elapsed dt => Nat.iter dt tick a
  | Unmounted => if mounted a then unmount a else a
  | _ => if mounted a then commit a (handle e a) else a
  end.

Definition run (es : list Event) (a : App) : App := foldl (fun acc e => step e acc) a es.

(** What the rendered page offers: a day can be picked from the hourly
    dropdown, which lists the live [dayOrder] and is rendered only with a
    ready forecast; the retry button is rendered only with a failed one. *)
Definition offered (a : App) (e : Event) : Prop :=
  match e with
  | DaySelected day =>
      weatherStatus a = weather_ready /\ searchStatus a <> search_no_results /\
      exists data, weatherData a = Some data /\ day ∈ WeatherData.dayOrder data
  | TryAgain => weatherStatus a = weather_error /\ searchStatus a <> search_no_results
  | _ => True
  end.

Fixpoint offered_all (a : App) (es : list Event) : Prop :=
  match es with
  | [] => True
  | e :: es' => offered a e /\ offered_all (step e a) es'
  end.


(** ** The hourly forecast panel (components/HourlyForecast.tsx) *)

Module HourlyForecast.
(** The props the component reads; [onSelectDay] is the event it emits,
    and [units] is not read. *)
Record Props : Type := mk {
  dayOrder : list string;
  selectedDay : option string;
  hourlyByDay : gmap string (list HourlyForecastPoint.t);
}.
End HourlyForecast.

(** [selectedDay ? hourlyByDay[selectedDay] ?? [] : []] *)
Definition hours (props : HourlyForecast.Props) : list HourlyForecastPoint.t :=
  match HourlyForecast.selectedDay props with
  | Some day =>
      if truthy day then default [] (HourlyForecast.hourlyByDay props !! day) else []
  | None => []
  end.

(** The options of the open dropdown, in order: each day of [dayOrder]
    with its [isActive] mark, [selectedDay === day]. *)
Definition options (props : HourlyForecast.Props) : list (string * bool) :=
  map (fun day => (day, bool_decide (HourlyForecast.selectedDay props = Some day)))
    (HourlyForecast.dayOrder props).

(** What the body of the panel shows. *)
Inductive HourlyContent : Type :=
| NoHourlyData
| HourRows (rows : list HourlyForecastPoint.t).

(** [hours.length === 0 ? <p>No hourly data available.</p> : ...] *)
Definition content (props : HourlyForecast.Props) : HourlyContent :=
  if length (hours props) =? 0 then NoHourlyData else HourRows (hours props).

(** The click on an option of the dropdown: the day handed to
    [onSelectDay], and the new value of [open]. *)
Definition optionClick (day : string) (open : bool) : string * bool := (day, false).

(** The click on the dropdown button: [setOpen((prev) => !prev)]. *)
Definition buttonClick (open : bool) : bool := negb open.

(** [mousedown] anywhere in the document: a press outside the dropdown
    closes it.  [contains] is [None] while [containerRef.current] is
    null, and otherwise tells whether the container contains the target
    of the event. *)
Definition handleClick (contains : option bool) (open : bool) : bool :=
  match contains with
  | Some false => false
  | _ => open
  end.

(** The props [App] renders the panel with, when it renders it:
    [weatherStatus === 'ready' && weatherData && searchStatus !== 'no-results']. *)
Definition hourlyForecast (a : App) : option HourlyForecast.Props :=
  match weatherStatus a, weatherData a, searchStatus a with
  | weather_ready, Some data, search_no_results => None
  | weather_ready, Some data, _ =>
      Some (HourlyForecast.mk (WeatherData.dayOrder data) (selectedDay a)
              (WeatherData.hourlyByDay data))
  | _, _, _ => None
  end.

(** ** A concrete page for the examples *)

Definition paris : LocationMatch.t :=
  {| LocationMatch.id := "2988507";
     LocationMatch.name := "Paris";
     LocationMatch.admin1 := Some "Ile-de-France";
     LocationMatch.country := "France";
     LocationMatch.latitude := 48.85341%float;
     LocationMatch.longitude := 2.3488%float;
     LocationMatch.timezone := "Europe/Paris" |}.

(** A match without a country. *)
Definition null_island : LocationMatch.t :=
  {| LocationMatch.id := "0";
     LocationMatch.name := "Null Island";
     LocationMatch.admin1 := None;
     LocationMatch.country := "";
     LocationMatch.latitude := 0%float;
     LocationMatch.longitude := 0%float;
     LocationMatch.timezone := "UTC" |}.

(** A stand-in for the platform's JSON functions, enough to save one
    place and read it back; the empty text does not parse. *)
Definition sample_stringify (l : LocationMatch.t) : string :=
  LocationMatch.id l +:+ "|" +:+ LocationMatch.name l +:+ "|" +:+ LocationMatch.country l.

Definition sample_parse (s : string) : Completion LocationMatch.t :=
  if decide (s = sample_stringify paris) then Normal paris
  else Throw (ErrorObject "Unexpected token").

Definition sample_platform : Platform := mkPlatform sample_parse sample_stringify.

Definition empty_storage : Storage := mkStorage true 5000 ∅.

Definition paris_storage : Storage :=
  mkStorage true 5000
    (<["selectedLocation" := sample_stringify paris]> (<["searchTerm" := "Paris, France"]> ∅)).

Definition sample_conditions : CurrentConditions.t :=
  CurrentConditions.mk 18%float 17%float 60%float 12%float 0%float
    "/assets/images/icon-sunny.webp" "Sunny" "2024-05-01T12:00".

Definition sample_data (days : list string) : WeatherData.t :=
  WeatherData.mk DEFAULT_LOCATION sample_conditions days ∅ days
    (UnitLabels.mk "km/h" "mm").

(** The first render over an empty storage, and the page once its
    effects have run. *)
Definition first_render : App := firstRender sample_platform empty_storage 0 [].
Definition fresh_page : App := boot sample_platform empty_storage 0 [].

(** The page after the user has typed three blanks. *)
Definition blank_page : App := step (Typed "   ") fresh_page.

(** The first forecast request of the fresh page was rejected. *)
Definition failed_page : App :=
  step (Settled 0 (forecast (Rejected (ErrorObject "Failed to fetch")))) fresh_page.

(** The first forecast arrived without any day. *)
Definition dayless_page : App :=
  step (Settled 0 (forecast (Fulfilled (sample_data [])))) fresh_page.

(** The first forecast arrived, a second later the timer asked again. *)
Definition refreshing_page (days : list string) : App :=
  run [Settled 0 (forecast (Fulfilled (sample_data days))); Elapsed 1000] fresh_page.

(** ** Invariants *)

(** The part of the state the selection invariant reads. *)
Definition forecastView (a : App) : WeatherStatus * option WeatherData.t * option string :=
  (weatherStatus a, weatherData a, selectedDay a).

(** With a ready forecast there is forecast data, and the selected day is
    one of its days, or no day when it has none. *)
Definition selection_valid (a : App) : Prop :=
  weatherStatus a = weather_ready ->
  exists data,
    weatherData a = Some data
    /\ match selectedDay a with
       | Some d => d ∈ WeatherData.dayOrder data
       | None => WeatherData.dayOrder data = []
       end.

(** What the effect and its cleanup leave alone. *)
Definition identityView (a : App) : bool * Ref LocationMatch.t * MeasurementSystem * nat :=
  (mounted a, selectedLocation a, units a, nextAddr a).

(** Only the cycle started last can be active, and only while the
    component is mounted; the selected location is an allocated object;
    the effect has run at least once. *)
Definition cycles_wf (a : App) : Prop :=
  (forall i cy, cycles a !! i = Some cy -> isActive cy = true ->
     mounted a = true /\ i = current a)
  /\ addr (selectedLocation a) < nextAddr a
  /\ 0 < length (cycles a).

Definition all_inactive (a : App) : Prop :=
  forall i cy, cycles a !! i = Some cy -> isActive cy = false.

(** An auto-refresh request is in flight together with the initial
    request of the same cycle. *)
Definition refresh_overlaps_initial (a : App) : Prop :=
  exists c rid0 rid1 loc0 u0 loc1 u1,
    pending a !! rid0 = Some (fetchWeatherForecast c false loc0 u0)
    /\ pending a !! rid1 = Some (fetchWeatherForecast c true loc1 u1).

(** What the timer invariant reads. *)
Definition timerView (a : App)
  : list Interval * list Cycle * option nat * nat * bool :=
  (intervals a, cycles a, reloadInterval a, nextIntervalId a, mounted a).

(** A timer that is the reload timer of the page. *)
Definition is_reload_timer (a : App) (iv : Interval) : Prop :=
  iv_callback iv = reloadPage
  /\ iv_period iv = 60000%N
  /\ reloadInterval a = Some (iv_id iv).

(** A timer that is the refresh timer of the current cycle. *)
Definition is_refresh_timer (a : App) (iv : Interval) : Prop :=
  iv_callback iv = autoRefresh (current a)
  /\ iv_period iv = 1000%N
  /\ iv_id iv <> 0
  /\ cycles a !! current a ≫= intervalId = Some (iv_id iv).

(** Every timer alive is the reload timer or the refresh timer of the
    current cycle, and none is alive once the component is unmounted. *)
Definition timers_wf (a : App) : Prop :=
  0 < nextIntervalId a
  /\ (forall iv, iv ∈ intervals a -> is_reload_timer a iv \/ is_refresh_timer a iv)
  /\ (mounted a = false -> intervals a = []).

(** Cycle [c] of the list was started for location [loc] and units [u]:
    that is what its closures captured. *)
Definition captures (l : list Cycle) (c : nat) (loc : Ref LocationMatch.t)
  (u : MeasurementSystem) : Prop :=
  exists cy, l !! c = Some cy /\ cy_location cy = loc /\ cy_units cy = u.

(** The current cycle was started for the location and units now
    selected, it is active while the component is mounted, and every
    forecast request in flight asks for what its cycle captured. *)
Definition requests_wf (a : App) : Prop :=
  captures (cycles a) (current a) (selectedLocation a) (units a)
  /\ (mounted a = true -> cycle_isActive (current a) a = true)
  /\ (forall rid c isAutoRefresh loc u,
        pending a !! rid = Some (fetchWeatherForecast c isAutoRefresh loc u) ->
        captures (cycles a) c loc u).

(** What that invariant reads. *)
Definition requestView (a : App)
  : list Cycle * gmap nat Request * Ref LocationMatch.t * MeasurementSystem * bool :=
  (cycles a, pending a, selectedLocation a, units a, mounted a).

(** The reload timer: identifier [rid], due at [d].  It is alive, no
    other timer has its identifier, and the timer of the current cycle is
    another one. *)
Definition armed_at (a : App) (rid : nat) (d : N) : Prop :=
  reloadInterval a = Some rid
  /\ rid < nextIntervalId a
  /\ mkInterval rid reloadPage 60000 d ∈ intervals a
  /\ (forall iv, iv ∈ intervals a -> iv_id iv = rid ->
       iv = mkInterval rid reloadPage 60000 d)
  /\ cycles a !! current a ≫= intervalId <> Some rid.

(** While the component is mounted its reload timer is alive, and due
    within the next 60000 units of time. *)
Definition reload_armed (a : App) : Prop :=
  mounted a = true ->
  exists rid d, armed_at a rid d /\ (now a < d <= now a + 60000)%N.



(** * Properties *)

(** Projections of the state records that reduction left as a [match]
    are written as projections again. *)
Ltac refold_app :=
  repeat first
  [ progress change (match ?x with mkApp v _ => v end) with (react x)
  | progress change (match ?x with mkApp _ v => v end) with (runtime x)
  | progress change (match ?x with mkReactState v _ _ _ _ _ _ _ _ _ => v end) with (searchTerm x)
  | progress change (match ?x with mkReactState _ v _ _ _ _ _ _ _ _ => v end) with (searchResults x)
  | progress change (match ?x with mkReactState _ _ v _ _ _ _ _ _ _ => v end) with (searchStatus x)
  | progress change (match ?x with mkReactState _ _ _ v _ _ _ _ _ _ => v end) with (searchError x)
  | progress change (match ?x with mkReactState _ _ _ _ v _ _ _ _ _ => v end) with (selectedLocation x)
  | progress change (match ?x with mkReactState _ _ _ _ _ v _ _ _ _ => v end) with (units x)
  | progress change (match ?x with mkReactState _ _ _ _ _ _ v _ _ _ => v end) with (weatherData x)
  | progress change (match ?x with mkReactState _ _ _ _ _ _ _ v _ _ => v end) with (weatherStatus x)
  | progress change (match ?x with mkReactState _ _ _ _ _ _ _ _ v _ => v end) with (weatherError x)
  | progress change (match ?x with mkReactState _ _ _ _ _ _ _ _ _ v => v end) with (selectedDay x)
  | progress change (match ?x with mkRuntime v _ _ _ _ _ _ _ _ _ _ _ => v end) with (platform x)
  | progress change (match ?x with mkRuntime _ v _ _ _ _ _ _ _ _ _ _ => v end) with (localStorage x)
  | progress change (match ?x with mkRuntime _ _ v _ _ _ _ _ _ _ _ _ => v end) with (cycles x)
  | progress change (match ?x with mkRuntime _ _ _ v _ _ _ _ _ _ _ _ => v end) with (intervals x)
  | progress change (match ?x with mkRuntime _ _ _ _ v _ _ _ _ _ _ _ => v end) with (nextIntervalId x)
  | progress change (match ?x with mkRuntime _ _ _ _ _ v _ _ _ _ _ _ => v end) with (reloadInterval x)
  | progress change (match ?x with mkRuntime _ _ _ _ _ _ v _ _ _ _ _ => v end) with (pending x)
  | progress change (match ?x with mkRuntime _ _ _ _ _ _ _ v _ _ _ _ => v end) with (nextRequestId x)
  | progress change (match ?x with mkRuntime _ _ _ _ _ _ _ _ v _ _ _ => v end) with (issued x)
  | progress change (match ?x with mkRuntime _ _ _ _ _ _ _ _ _ v _ _ => v end) with (now x)
  | progress change (match ?x with mkRuntime _ _ _ _ _ _ _ _ _ _ v _ => v end) with (nextAddr x)
  | progress change (match ?x with mkRuntime _ _ _ _ _ _ _ _ _ _ _ v => v end) with (mounted x)
  | progress change (match ?x with mkRef v _ => v end) with (addr x)
  | progress change (match ?x with mkRef _ v => v end) with (obj x) ].

(** Reduce the setters and the projections of the state records, by need,
    and nothing else. *)
Ltac unfold_app :=
  lazy beta iota zeta delta
    [setSearchTerm setSearchResults setSearchStatus setSearchError setSelectedLocation
     setUnits setWeatherData setWeatherStatus setWeatherError setSelectedDay
     put_localStorage put_cycles put_intervals put_nextIntervalId put_reloadInterval
     put_pending put_nextRequestId put_issued put_now put_nextAddr put_mounted
     with_react with_runtime request setInterval clearInterval
     updateSelectedDay react runtime
     searchTerm searchResults searchStatus searchError selectedLocation units
     weatherData weatherStatus weatherError selectedDay
     platform localStorage cycles intervals nextIntervalId reloadInterval pending
     nextRequestId issued now nextAddr mounted addr obj];
  refold_app.

(** Membership in a list that is written out. *)
Ltac in_list :=
  repeat first [ apply list_elem_of_here | apply list_elem_of_further ].

(** ** Loading the persisted settings *)

Lemma loadSavedLocation_total (p : Platform) (ls : Storage) :
  exists v, loadSavedLocation p ls = Normal v.
Proof.
  unfold loadSavedLocation, loadSavedLocation_try, getItem.
  destruct (st_enabled ls); cbn; [|eauto].
  destruct (st_items ls !! "selectedLocation") as [saved|]; cbn; [|eauto].
  destruct (truthy saved); cbn; [|eauto].
  destruct (JSON_parse p saved); cbn; eauto.
Qed.

Lemma loadSavedSearchTerm_total (ls : Storage) :
  exists v, loadSavedSearchTerm ls = Normal v.
Proof.
  unfold loadSavedSearchTerm, loadSavedSearchTerm_try, getItem.
  destruct (st_enabled ls); cbn; [|eauto].
  destruct (st_items ls !! "searchTerm") as [saved|]; cbn; [|eauto].
  destruct (truthy saved); cbn; eauto.
Qed.

Lemma truthy_false (s : string) : truthy s = false <-> s = "".
Proof. destruct s; cbn; split; congruence. Qed.

(** C9.  Loading the persisted location never throws.  It yields the
    compiled-in default when storage cannot be read, when nothing is stored
    under the key, and when the stored text does not parse; otherwise it
    yields the parsed value.  Loading the search term never throws either
    and falls back to the default city's search string,
    "San Francisco, United States".  ([JSON.parse] rejects the empty
    text, which is the hypothesis.) *)
Theorem loadSaved_falls_back (p : Platform) (ls : Storage) :
  (forall v, JSON_parse p "" <> Normal v) ->
  loadSavedLocation p ls =
    Normal match getItem ls "selectedLocation" with
           | Normal (Some saved) =>
               match JSON_parse p saved with
               | Normal v => v
               | Throw _ => DEFAULT_LOCATION
               end
           | Normal None => DEFAULT_LOCATION
           | Throw _ => DEFAULT_LOCATION
           end
  /\ loadSavedSearchTerm ls =
    Normal match getItem ls "searchTerm" with
           | Normal (Some saved) =>
               if truthy saved then saved else "San Francisco, United States"
           | Normal None => "San Francisco, United States"
           | Throw _ => "San Francisco, United States"
           end.
Proof.
  intros Hempty. split.
  - unfold loadSavedLocation, loadSavedLocation_try, getItem.
    destruct (st_enabled ls); cbn; [|reflexivity].
    destruct (st_items ls !! "selectedLocation") as [saved|]; cbn; [|reflexivity].
    destruct (truthy saved) eqn:Hsaved; cbn.
    + destruct (JSON_parse p saved); reflexivity.
    + apply truthy_false in Hsaved as ->.
      destruct (JSON_parse p "") as [v|e]; [|reflexivity].
      exfalso. exact (Hempty v eq_refl).
  - unfold loadSavedSearchTerm, loadSavedSearchTerm_try, getItem.
    destruct (st_enabled ls); cbn; [|reflexivity].
    destruct (st_items ls !! "searchTerm") as [saved|]; cbn; [|reflexivity].
    destruct (truthy saved); reflexivity.
Qed.

Lemma sample_parse_empty (v : LocationMatch.t) : sample_parse "" <> Normal v.
Proof. unfold sample_parse. rewrite decide_False; [discriminate|]. vm_compute. discriminate. Qed.

Lemma loadSaved_falls_back_witness :
  (loadSavedLocation sample_platform empty_storage = Normal DEFAULT_LOCATION
   /\ loadSavedSearchTerm empty_storage = Normal "San Francisco, United States")
  /\ (loadSavedLocation sample_platform paris_storage = Normal paris
      /\ loadSavedSearchTerm paris_storage = Normal "Paris, France").
Proof.
  split.
  - exact (loadSaved_falls_back sample_platform empty_storage sample_parse_empty).
  - exact (loadSaved_falls_back sample_platform paris_storage sample_parse_empty).
Defined.

(** ** Searching and selecting *)

Lemma commit_same_deps (before after : App) :
  selectedLocation after = selectedLocation before ->
  units after = units before ->
  commit before after = after.
Proof.
  intros Hloc Hunits. unfold commit, depsChanged.
  rewrite Hloc, Hunits, Nat.eqb_refl, bool_decide_eq_true_2; reflexivity.
Qed.

(** C7.  Submitting a query whose trimmed text is empty sets the search
    status to no-results, empties the result list, removes the forecast
    data and resets the forecast status to idle; no network call is made:
    the log of calls and the set of requests in flight are unchanged. *)
Theorem submit_blank (a : App) :
  mounted a = true ->
  trim (searchTerm a) = "" ->
  searchStatus (step Submitted a) = search_no_results
  /\ searchResults (step Submitted a) = []
  /\ weatherData (step Submitted a) = None
  /\ weatherStatus (step Submitted a) = weather_idle
  /\ issued (step Submitted a) = issued a
  /\ pending (step Submitted a) = pending a.
Proof.
  intros Hmounted Hblank. unfold step. rewrite Hmounted.
  cbn [handle]. unfold handleSearch. rewrite Hblank. cbn [truthy negb].
  rewrite commit_same_deps by reflexivity.
  repeat split.
Qed.

Lemma submit_blank_witness :
  searchStatus (step Submitted blank_page) = search_no_results
  /\ searchResults (step Submitted blank_page) = []
  /\ weatherData (step Submitted blank_page) = None
  /\ weatherStatus (step Submitted blank_page) = weather_idle
  /\ issued (step Submitted blank_page) = issued blank_page
  /\ pending (step Submitted blank_page) = pending blank_page.
Proof. apply (submit_blank blank_page); reflexivity. Defined.

Lemma copy_is_equal (location : LocationMatch.t) :
  {| LocationMatch.id := LocationMatch.id location;
     LocationMatch.name := LocationMatch.name location;
     LocationMatch.country := LocationMatch.country location;
     LocationMatch.admin1 := LocationMatch.admin1 location;
     LocationMatch.latitude := LocationMatch.latitude location;
     LocationMatch.longitude := LocationMatch.longitude location;
     LocationMatch.timezone := LocationMatch.timezone location |} = location.
Proof. destruct location; reflexivity. Qed.

Lemma getItem_setItem (ls ls' : Storage) (key value : string) :
  setItem ls key value = Normal ls' ->
  getItem ls' key = Normal (Some value)
  /\ forall other, other <> key -> getItem ls' other = getItem ls other.
Proof.
  unfold setItem, getItem. destruct (st_enabled ls) eqn:Hon; [|discriminate].
  destruct (_ <=? _); [|discriminate]. intros [= <-]. cbn. split.
  - by rewrite lookup_insert_eq.
  - intros other Hother. by rewrite lookup_insert_ne.
Qed.

(** The page in which [handleLocationSelection] leaves things, spelled
    out. *)
Lemma handleLocationSelection_unfold (location : LocationMatch.t) (a : App) :
  handleLocationSelection location a
  = mkApp
      (mkReactState (locationString location) [] search_idle (searchError a)
         (mkRef (nextAddr a) location) (units a) (weatherData a) (weatherStatus a)
         (weatherError a) (selectedDay a))
      (mkRuntime (platform a)
         (saveSelection (platform a) location (locationString location) (localStorage a))
         (cycles a) (intervals a) (nextIntervalId a) (reloadInterval a) (pending a)
         (nextRequestId a) (issued a) (now a) (S (nextAddr a)) (mounted a)).
Proof.
  unfold handleLocationSelection. rewrite copy_is_equal. unfold_app. reflexivity.
Qed.

(** C8, as the code has it.  Selecting a location publishes a freshly
    allocated copy with the same fields, empties the result list, resets
    the search status to idle, and rewrites the query text to
    "name, country" when the country is not empty and to the name alone
    when it is.  When storage accepts both writes, the serialised copy and
    that text are what it then holds under the two keys; a refused write
    is swallowed. *)
Theorem select_location (location : LocationMatch.t) (a : App) :
  let a' := handleLocationSelection location a in
  obj (selectedLocation a') = location
  /\ addr (selectedLocation a') = nextAddr a
  /\ nextAddr a' = S (nextAddr a)
  /\ searchResults a' = []
  /\ searchStatus a' = search_idle
  /\ searchTerm a' = locationString location
  /\ (LocationMatch.country location <> "" ->
      searchTerm a' = LocationMatch.name location +:+ ", " +:+ LocationMatch.country location)
  /\ (LocationMatch.country location = "" ->
      searchTerm a' = LocationMatch.name location +:+ "")
  /\ (forall ls1 ls2,
        setItem (localStorage a) "selectedLocation" (JSON_stringify (platform a) location)
          = Normal ls1 ->
        setItem ls1 "searchTerm" (locationString location) = Normal ls2 ->
        getItem (localStorage a') "selectedLocation"
          = Normal (Some (JSON_stringify (platform a) location))
        /\ getItem (localStorage a') "searchTerm" = Normal (Some (locationString location))).
Proof.
  cbn zeta. rewrite handleLocationSelection_unfold. unfold_app.
  do 6 (split; [reflexivity|]). split; [|split].
  - intros Hcountry. unfold locationString.
    destruct (LocationMatch.country location); [congruence | reflexivity].
  - intros Hcountry. unfold locationString. by rewrite Hcountry.
  - intros ls1 ls2 Hfirst Hsecond. unfold saveSelection. rewrite Hfirst, Hsecond.
    destruct (getItem_setItem _ _ _ _ Hfirst) as [Hloc _].
    destruct (getItem_setItem _ _ _ _ Hsecond) as [Hterm Hother].
    split; [|exact Hterm]. rewrite Hother by discriminate. exact Hloc.
Qed.

(** C8, as stated, fails for a match whose country is empty: the query
    text becomes the name alone, without the separator. *)
Lemma select_location_without_country :
  searchTerm (handleLocationSelection null_island fresh_page) = "Null Island"
  /\ searchTerm (handleLocationSelection null_island fresh_page)
     <> LocationMatch.name null_island +:+ ", " +:+ LocationMatch.country null_island.
Proof. split; [reflexivity | discriminate]. Qed.

Lemma select_location_witness :
  searchTerm (handleLocationSelection paris fresh_page) = "Paris, France"
  /\ getItem (localStorage (handleLocationSelection paris fresh_page)) "searchTerm"
     = Normal (Some "Paris, France")
  /\ getItem (localStorage (handleLocationSelection paris fresh_page)) "selectedLocation"
     = Normal (Some (sample_stringify paris)).
Proof.
  destruct (select_location paris fresh_page)
    as (_ & _ & _ & _ & _ & _ & Hcountry & _ & Hsaved).
  split; [apply Hcountry; discriminate|].
  destruct (Hsaved
    (mkStorage true 5000 (<["selectedLocation" := sample_stringify paris]> ∅))
    (mkStorage true 5000
       (<["searchTerm" := "Paris, France"]> (<["selectedLocation" := sample_stringify paris]> ∅))))
    as [Hloc Hterm]; [reflexivity | reflexivity |].
  split; [exact Hterm | exact Hloc].
Defined.

(** ** One forecast request *)

Lemma settle_forecast (a : App) (rid c : nat) (isAutoRefresh : bool)
  (loc : Ref LocationMatch.t) (u : MeasurementSystem) (outcome : Outcome WeatherData.t) :
  pending a !! rid = Some (fetchWeatherForecast c isAutoRefresh loc u) ->
  step (Settled rid (forecast outcome)) a
  = fetchWeather_settled c isAutoRefresh outcome (put_pending (delete rid (pending a)) a).
Proof. intros Hpending. cbn [step]. unfold settle. by rewrite Hpending. Qed.

Lemma cycle_isActive_put_pending (c : nat) (m : gmap nat Request) (a : App) :
  cycle_isActive c (put_pending m a) = cycle_isActive c a.
Proof. reflexivity. Qed.

Lemma fetchWeather_known (c : nat) (isAutoRefresh : bool) (cy : Cycle) (a : App) :
  cycles a !! c = Some cy ->
  fetchWeather c isAutoRefresh a
  = a |> (if negb isAutoRefresh then setWeatherStatus weather_loading else id)
      |> setWeatherError None
      |> request (fetchWeatherForecast c isAutoRefresh (cy_location cy) (cy_units cy)).
Proof. intros Hc. unfold fetchWeather. by rewrite Hc. Qed.

Lemma new_cycle_lookup (a : App) (cy : Cycle) :
  (cycles a ++ [cy]) !! length (cycles a) = Some cy.
Proof. by rewrite list_lookup_middle. Qed.

(** The state in which the effect leaves the page, spelled out. *)
Lemma weatherEffect_unfold (a : App) :
  let c := length (cycles a) in
  let started :=
    a |> put_cycles (cycles a ++ [mkCycle true None (selectedLocation a) (units a)])
      |> setWeatherStatus weather_loading
      |> setWeatherError None
      |> request (fetchWeatherForecast c false (selectedLocation a) (units a)) in
  weatherEffect a
  = started
      |> setInterval (autoRefresh c) 1000%N
      |> put_cycles (alter (set_intervalId (Some (nextIntervalId a))) c (cycles started)).
Proof.
  cbn zeta. unfold weatherEffect.
  rewrite (fetchWeather_known _ _ (mkCycle true None (selectedLocation a) (units a)))
    by apply new_cycle_lookup.
  reflexivity.
Qed.

(** C6.  A cycle starts by setting the status to loading and then issuing
    its initial request: the request is made from a page whose status is
    already loading.  When that request settles while the cycle is still
    active: on success the status becomes ready, the payload is the
    forecast data, and the selected day is the first element of the new
    dayOrder (none when it is empty); on failure the status becomes error
    and the error message is the message of the failure (for a thrown
    value that is not an Error, "Unable to load forecast"). *)
Theorem initial_fetch (a : App) :
  let c := length (cycles a) in
  let rid := nextRequestId a in
  let call := fetchWeatherForecast c false (selectedLocation a) (units a) in
  (exists loading : App,
     weatherStatus loading = weather_loading
     /\ issued loading = issued a
     /\ pending loading = pending a
     /\ fetchWeather c false
          (put_cycles (cycles a ++ [mkCycle true None (selectedLocation a) (units a)]) a)
        = request call loading)
  /\ weatherStatus (weatherEffect a) = weather_loading
  /\ pending (weatherEffect a) !! rid = Some call
  /\ issued (weatherEffect a) = issued a ++ [call]
  /\ cycle_isActive c (weatherEffect a) = true
  /\ forall b : App,
       pending b !! rid = Some call ->
       cycle_isActive c b = true ->
       (forall data,
          let b' := step (Settled rid (forecast (Fulfilled data))) b in
          weatherStatus b' = weather_ready
          /\ weatherData b' = Some data
          /\ selectedDay b' = head (WeatherData.dayOrder data))
       /\ (forall error,
          let b' := step (Settled rid (forecast (Rejected error))) b in
          weatherStatus b' = weather_error
          /\ weatherError b' = Some (messageOr "Unable to load forecast" error)
          /\ (forall message, error = ErrorObject message -> weatherError b' = Some message)).
Proof.
  cbn zeta. split.
  { eexists. split; [|split; [|split]];
      [| | | apply (fetchWeather_known _ _ (mkCycle true None (selectedLocation a) (units a))),
               new_cycle_lookup]; reflexivity. }
  rewrite weatherEffect_unfold. cbn zeta. unfold_app.
  split; [reflexivity|]. split; [by rewrite lookup_insert_eq|]. split; [reflexivity|].
  split.
  { unfold cycle_isActive. unfold_app.
    rewrite list_lookup_alter_eq, new_cycle_lookup. reflexivity. }
  intros b Hpending Hactive. split.
  - intros data. rewrite (settle_forecast _ _ _ _ _ _ _ Hpending).
    unfold fetchWeather_settled. rewrite cycle_isActive_put_pending, Hactive.
    cbn [negb]. unfold_app. repeat split.
  - intros error. rewrite (settle_forecast _ _ _ _ _ _ _ Hpending).
    unfold fetchWeather_settled. rewrite cycle_isActive_put_pending, Hactive.
    cbn [negb]. unfold_app. repeat split. by intros message ->.
Qed.

Lemma initial_fetch_witness :
  weatherStatus (weatherEffect first_render) = weather_loading
  /\ weatherStatus
       (step (Settled 0 (forecast (Fulfilled (sample_data ["2024-05-01"; "2024-05-02"]))))
          (weatherEffect first_render)) = weather_ready
  /\ selectedDay
       (step (Settled 0 (forecast (Fulfilled (sample_data ["2024-05-01"; "2024-05-02"]))))
          (weatherEffect first_render)) = Some "2024-05-01"
  /\ weatherError
       (step (Settled 0 (forecast (Rejected (ErrorObject "Failed to fetch"))))
          (weatherEffect first_render)) = Some "Failed to fetch".
Proof.
  destruct (initial_fetch first_render)
    as (_ & Hloading & Hpending & _ & Hactive & Hsettled).
  split; [exact Hloading|].
  destruct (Hsettled (weatherEffect first_render) Hpending Hactive) as [Hok Hfail].
  destruct (Hok (sample_data ["2024-05-01"; "2024-05-02"])) as (Hready & _ & Hday).
  destruct (Hfail (ErrorObject "Failed to fetch")) as (_ & Hmessage & _).
  split; [exact Hready|]. split; [exact Hday | exact Hmessage].
Defined.

(** ** Auto-refresh *)

Lemma autoRefreshTick_active (c : nat) (cy : Cycle) (a : App) :
  cycles a !! c = Some cy -> isActive cy = true ->
  autoRefreshTick c a
  = a |> setWeatherError None
      |> request (fetchWeatherForecast c true (cy_location cy) (cy_units cy)).
Proof.
  intros Hc Hactive. unfold autoRefreshTick. rewrite Hc, Hactive.
  cbn [andb truthy_object]. by rewrite (fetchWeather_known _ _ _ _ Hc).
Qed.

Lemma keepDay_kept (data : WeatherData.t) (d : string) :
  d <> "" -> d ∈ WeatherData.dayOrder data -> keepDay data (Some d) = Some d.
Proof.
  intros Hd Hin. unfold keepDay.
  destruct d; [congruence|]. cbn [truthy andb].
  by rewrite bool_decide_eq_true_2.
Qed.

Lemma keepDay_replaced (data : WeatherData.t) (prevDay : option string) :
  (forall d, prevDay = Some d -> d = "" \/ d ∉ WeatherData.dayOrder data) ->
  keepDay data prevDay = head (WeatherData.dayOrder data).
Proof.
  intros Hprev. unfold keepDay, firstDay.
  destruct prevDay as [d|]; [|reflexivity].
  destruct (Hprev d eq_refl) as [-> | Hout]; [reflexivity|].
  rewrite bool_decide_eq_false_2 by assumption. by rewrite andb_false_r.
Qed.

(** The sticky selection.  When an auto-refresh request is fulfilled
    while its cycle is still active, the payload becomes the forecast data
    and the status is ready; the selected day stays as it was when it is a
    non-empty day contained in the new dayOrder, and otherwise (no day
    selected, the empty string selected, or a day that the new dayOrder
    lacks) becomes the first element of the new dayOrder (none when it is
    empty). *)
Theorem auto_refresh_success (a : App) (rid c : nat) (loc : Ref LocationMatch.t)
  (u : MeasurementSystem) (data : WeatherData.t) :
  pending a !! rid = Some (fetchWeatherForecast c true loc u) ->
  cycle_isActive c a = true ->
  let a' := step (Settled rid (forecast (Fulfilled data))) a in
  weatherData a' = Some data
  /\ weatherStatus a' = weather_ready
  /\ (forall d, selectedDay a = Some d -> d <> "" -> d ∈ WeatherData.dayOrder data ->
      selectedDay a' = Some d)
  /\ (forall d, selectedDay a = Some d -> d ∉ WeatherData.dayOrder data ->
      selectedDay a' = head (WeatherData.dayOrder data))
  /\ (selectedDay a = Some "" -> selectedDay a' = head (WeatherData.dayOrder data))
  /\ (selectedDay a = None -> selectedDay a' = head (WeatherData.dayOrder data)).
Proof.
  intros Hpending Hactive. cbn zeta. rewrite (settle_forecast _ _ _ _ _ _ _ Hpending).
  unfold fetchWeather_settled. rewrite cycle_isActive_put_pending, Hactive.
  cbn [negb]. unfold_app. split; [reflexivity|]. split; [reflexivity|].
  split; [|split; [|split]].
  - intros d -> Hd Hin. by apply keepDay_kept.
  - intros d -> Hout. apply keepDay_replaced. intros ? [= <-]. by right.
  - intros ->. apply keepDay_replaced. intros ? [= <-]. by left.
  - intros ->. by apply keepDay_replaced.
Qed.

Lemma auto_refresh_success_witness :
  selectedDay (refreshing_page ["2024-05-01"; "2024-05-02"]) = Some "2024-05-01"
  /\ selectedDay
       (step (Settled 1 (forecast (Fulfilled (sample_data ["2024-04-30"; "2024-05-01"]))))
          (refreshing_page ["2024-05-01"; "2024-05-02"])) = Some "2024-05-01"
  /\ selectedDay
       (step (Settled 1 (forecast (Fulfilled (sample_data ["2024-05-02"; "2024-05-03"]))))
          (refreshing_page ["2024-05-01"; "2024-05-02"])) = Some "2024-05-02".
Proof.
  split; [reflexivity|]. split.
  - destruct (auto_refresh_success (refreshing_page ["2024-05-01"; "2024-05-02"]) 1 0
                (mkRef 0 DEFAULT_LOCATION) metric (sample_data ["2024-04-30"; "2024-05-01"])
                eq_refl eq_refl) as (_ & _ & Hkeep & _).
    apply Hkeep; [reflexivity | discriminate |]. cbn. in_list.
  - destruct (auto_refresh_success (refreshing_page ["2024-05-01"; "2024-05-02"]) 1 0
                (mkRef 0 DEFAULT_LOCATION) metric (sample_data ["2024-05-02"; "2024-05-03"])
                eq_refl eq_refl) as (_ & _ & _ & Hdrop & _).
    apply (Hdrop "2024-05-01"); [reflexivity|]. cbn.
    intros Hin. repeat (apply elem_of_cons in Hin as [Hin | Hin]; [discriminate Hin|]).
    by apply elem_of_nil in Hin.
Defined.


(** A failed auto-refresh attempt of an active cycle, from its beginning
    to the rejection: the status and the forecast data are what they were,
    and the error message is cleared. *)
Lemma auto_refresh_failure (a : App) (c : nat) (cy : Cycle) (error : Thrown) :
  cycles a !! c = Some cy ->
  isActive cy = true ->
  let began := autoRefreshTick c a in
  let done := step (Settled (nextRequestId a) (forecast (Rejected error))) began in
  weatherStatus done = weatherStatus a
  /\ weatherData done = weatherData a
  /\ weatherError done = None.
Proof.
  intros Hc Hactive. cbn zeta.
  pose proof (autoRefreshTick_active c cy a Hc Hactive) as Hbegan.
  rewrite Hbegan.
  erewrite settle_forecast by (unfold_app; apply lookup_insert_eq).
  unfold fetchWeather_settled. rewrite cycle_isActive_put_pending.
  replace (cycle_isActive c _) with true
    by (unfold cycle_isActive; unfold_app; by rewrite Hc).
  cbn [negb]. unfold_app. repeat split.
Qed.

(** C2 fails on the code.  The initial fetch of the fresh page was
    rejected, so the status is error with the message of the failure.  A
    second later the timer starts an auto-refresh attempt, which is
    rejected too: the status and the data are as before the attempt, but
    the error message is gone. *)
Theorem failed_refresh_clears_error :
  weatherStatus failed_page = weather_error
  /\ weatherError failed_page = Some "Failed to fetch"
  /\ pending (step (Elapsed 1000) failed_page) !! 1
     = Some (fetchWeatherForecast 0 true (mkRef 0 DEFAULT_LOCATION) metric)
  /\ weatherError (step (Elapsed 1000) failed_page) = None
  /\ weatherStatus
       (run [Elapsed 1000; Settled 1 (forecast (Rejected (ErrorObject "Failed to fetch")))]
          failed_page) = weather_error
  /\ weatherData
       (run [Elapsed 1000; Settled 1 (forecast (Rejected (ErrorObject "Failed to fetch")))]
          failed_page) = weatherData failed_page
  /\ weatherError
       (run [Elapsed 1000; Settled 1 (forecast (Rejected (ErrorObject "Failed to fetch")))]
          failed_page) = None.
Proof. vm_compute. repeat split. Qed.

(** ** What every event preserves *)

(** Timers run callbacks only: a property kept by rescheduling, by the
    auto-refresh callback and by time passing, and true of a reloaded
    page, is kept by [Elapsed]. *)
Section Timers.
Variable P : App -> Prop.
Hypothesis P_put_now : forall a v, P a -> P (put_now v a).
Hypothesis P_put_intervals : forall a v, P a -> P (put_intervals v a).
Hypothesis P_autoRefreshTick : forall a c, P a -> P (autoRefreshTick c a).
Hypothesis P_boot : forall p ls t log, P (boot p ls t log).

Lemma fire_preserves (iv : Interval) (a : App) : P a -> P (fire iv a).
Proof using P_put_intervals P_autoRefreshTick P_boot.
  intros Ha. unfold fire.
  destruct (list_find _ _) as [[i cur]|]; [|assumption].
  destruct (_ =? _)%N; [|assumption].
  destruct (iv_callback cur).
  - by apply P_autoRefreshTick, P_put_intervals.
  - unfold reload. apply P_boot.
Qed.

Lemma tick_preserves (a : App) : P a -> P (tick a).
Proof using All.
  intros Ha. unfold tick.
  generalize (intervals (put_now (N.succ (now a)) a)).
  assert (Hstart : P (put_now (N.succ (now a)) a)) by by apply P_put_now.
  revert Hstart. generalize (put_now (N.succ (now a)) a).
  intros acc Hacc l. revert acc Hacc.
  induction l as [|iv l IH]; intros acc Hacc; [assumption|].
  cbn [foldl]. by apply IH, fire_preserves.
Qed.

Lemma elapse_preserves (dt : nat) (a : App) : P a -> P (Nat.iter dt tick a).
Proof using All.
  intros Ha.
  induction dt as [|dt IH]; [assumption|].
  cbn [Nat.iter]. by apply tick_preserves.
Qed.
End Timers.

Lemma valid_same_view (a a' : App) :
  forecastView a' = forecastView a -> selection_valid a -> selection_valid a'.
Proof. unfold forecastView, selection_valid. intros [= -> -> ->]. tauto. Qed.

Lemma valid_not_ready (a : App) : weatherStatus a <> weather_ready -> selection_valid a.
Proof. unfold selection_valid. tauto. Qed.

Lemma autoRefreshTick_view (c : nat) (a : App) :
  forecastView (autoRefreshTick c a) = forecastView a.
Proof.
  unfold autoRefreshTick. destruct (cycles a !! c) as [cy|] eqn:Hc; [|reflexivity].
  destruct (isActive cy && _); [|reflexivity].
  by rewrite (fetchWeather_known _ _ _ _ Hc).
Qed.

Lemma weatherCleanup_view (c : nat) (a : App) :
  forecastView (weatherCleanup c a) = forecastView a.
Proof.
  unfold weatherCleanup.
  destruct (cycles a !! c ≫= intervalId) as [iid|]; [|reflexivity].
  by destruct (negb _).
Qed.

Lemma weatherEffect_loading (a : App) : weatherStatus (weatherEffect a) = weather_loading.
Proof. by rewrite weatherEffect_unfold. Qed.

Lemma reloadEffect_react (a : App) : react (reloadEffect a) = react a.
Proof. reflexivity. Qed.

Lemma boot_loading (p : Platform) (ls : Storage) (t : N) (log : list Request) :
  weatherStatus (boot p ls t log) = weather_loading.
Proof. unfold boot. rewrite reloadEffect_react. apply weatherEffect_loading. Qed.

Lemma commit_valid (before after : App) :
  selection_valid after -> selection_valid (commit before after).
Proof.
  intros Hafter. unfold commit. destruct (depsChanged _ _); [|assumption].
  apply valid_not_ready. by rewrite weatherEffect_loading.
Qed.

Lemma head_valid (data : WeatherData.t) :
  match firstDay data with
  | Some d => d ∈ WeatherData.dayOrder data
  | None => WeatherData.dayOrder data = []
  end.
Proof.
  unfold firstDay. destruct (WeatherData.dayOrder data); cbn [head];
    [reflexivity | apply list_elem_of_here].
Qed.

Lemma fetchWeather_settled_valid (c : nat) (isAutoRefresh : bool)
  (outcome : Outcome WeatherData.t) (a : App) :
  selection_valid a -> selection_valid (fetchWeather_settled c isAutoRefresh outcome a).
Proof.
  intros Ha. unfold fetchWeather_settled.
  destruct outcome as [data|error]; destruct (negb (cycle_isActive c a)); try assumption.
  - intros _. exists data. destruct isAutoRefresh; cbn [negb]; unfold_app.
    + split; [reflexivity|]. unfold keepDay.
      destruct (selectedDay a) as [d|]; [|apply head_valid].
      destruct (truthy d); cbn [andb]; [|apply head_valid].
      case_bool_decide; [assumption | apply head_valid].
    + split; [reflexivity | apply head_valid].
  - destruct isAutoRefresh; cbn [negb]; [assumption|]. by apply valid_not_ready.
Qed.

Lemma handleSearch_settled_valid (outcome : Outcome (list LocationMatch.t)) (a : App) :
  selection_valid a -> selection_valid (handleSearch_settled outcome a).
Proof.
  intros Ha. unfold handleSearch_settled.
  destruct outcome as [results|error]; [destruct (_ =? _)|];
    first [ by apply valid_not_ready | by apply (valid_same_view a) ].
Qed.

Lemma step_valid (e : Event) (a : App) :
  selection_valid a -> offered a e -> selection_valid (step e a).
Proof.
  intros Ha Hoffered. destruct e; cbn [step].
  - destruct (mounted a); [|assumption]. by apply commit_valid, (valid_same_view a).
  - destruct (mounted a); [|assumption]. apply commit_valid. cbn [handle].
    unfold handleSearch. destruct (negb _);
      first [ by apply valid_not_ready | by apply (valid_same_view a) ].
  - destruct (mounted a); [|assumption]. by apply commit_valid, (valid_same_view a).
  - destruct (mounted a); [|assumption]. by apply commit_valid, (valid_same_view a).
  - destruct (mounted a); [|assumption]. by apply commit_valid, (valid_same_view a).
  - destruct (mounted a); [|assumption]. apply commit_valid.
    destruct Hoffered as (_ & _ & data & Hdata & Hday).
    intros _. by exists data.
  - unfold settle. destruct (pending a !! rid) as [r|]; [|assumption].
    assert (Hdropped : selection_valid (put_pending (delete rid (pending a)) a))
      by by apply (valid_same_view a).
    destruct r, response; try assumption.
    + destruct (mounted a); [|assumption]. by apply handleSearch_settled_valid.
    + by apply fetchWeather_settled_valid.
  - apply elapse_preserves; try assumption.
    + intros b v Hb. by apply (valid_same_view b).
    + intros b v Hb. by apply (valid_same_view b).
    + intros b c Hb. apply (valid_same_view b); [apply autoRefreshTick_view | assumption].
    + intros p ls t log. apply valid_not_ready. by rewrite boot_loading.
  - destruct (mounted a); [|assumption]. apply (valid_same_view a); [|assumption].
    unfold unmount, reloadCleanup.
    transitivity (forecastView (weatherCleanup (current a) a));
      [|apply weatherCleanup_view].
    by destruct (reloadInterval _).
Qed.

Lemma run_valid (es : list Event) (a : App) :
  selection_valid a -> offered_all a es -> selection_valid (run es a).
Proof.
  revert a. induction es as [|e es IH]; intros a Ha Hes; [assumption|].
  destruct Hes as [He Hes]. cbn [run foldl]. apply IH; [by apply step_valid | assumption].
Qed.

Lemma boot_valid (p : Platform) (ls : Storage) (t : N) (log : list Request) :
  selection_valid (boot p ls t log).
Proof. apply valid_not_ready. by rewrite boot_loading. Qed.

(** C1, as the code has it.  On every page reached from its first render
    by events that the rendered page offers (a day is picked from the
    live dayOrder), a ready forecast has forecast data, and the selected
    day is one of the days of its dayOrder, or no day at all when that
    dayOrder is empty.  When an initial fetch is fulfilled in its active
    cycle, the forecast is ready and the selected day is the first element
    of that fetch's dayOrder: a member of it when it is not empty, and no
    day when it is. *)
Theorem ready_selection (p : Platform) (ls : Storage) (t : N) (log : list Request)
  (es : list Event) :
  offered_all (boot p ls t log) es ->
  let a := run es (boot p ls t log) in
  (weatherStatus a = weather_ready ->
   exists data,
     weatherData a = Some data
     /\ match selectedDay a with
        | Some d => d ∈ WeatherData.dayOrder data
        | None => WeatherData.dayOrder data = []
        end)
  /\ forall rid c loc u data,
       pending a !! rid = Some (fetchWeatherForecast c false loc u) ->
       cycle_isActive c a = true ->
       let a' := step (Settled rid (forecast (Fulfilled data))) a in
       weatherStatus a' = weather_ready
       /\ weatherData a' = Some data
       /\ selectedDay a' = head (WeatherData.dayOrder data)
       /\ (forall d, selectedDay a' = Some d -> d ∈ WeatherData.dayOrder data)
       /\ (selectedDay a' = None -> WeatherData.dayOrder data = []).
Proof.
  intros Hes. cbn zeta. split.
  - apply (run_valid es); [apply boot_valid | assumption].
  - intros rid c loc u data Hpending Hactive.
    rewrite (settle_forecast _ _ _ _ _ _ _ Hpending).
    unfold fetchWeather_settled. rewrite cycle_isActive_put_pending, Hactive.
    cbn [negb]. unfold_app. unfold firstDay.
    split; [reflexivity|]. split; [reflexivity|]. split; [reflexivity|].
    destruct (WeatherData.dayOrder data) as [|d0 days]; cbn [head]; split.
    + discriminate.
    + reflexivity.
    + intros d [= <-]. set_solver.
    + discriminate.
Qed.

Lemma ready_selection_witness :
  weatherStatus
    (run [Settled 0 (forecast (Fulfilled (sample_data ["2024-05-01"; "2024-05-02"])));
          DaySelected "2024-05-02"] fresh_page) = weather_ready
  /\ exists data,
       weatherData
         (run [Settled 0 (forecast (Fulfilled (sample_data ["2024-05-01"; "2024-05-02"])));
               DaySelected "2024-05-02"] fresh_page) = Some data
       /\ "2024-05-02" ∈ WeatherData.dayOrder data.
Proof.
  split; [reflexivity|].
  assert (Hoffered : offered_all fresh_page
            [Settled 0 (forecast (Fulfilled (sample_data ["2024-05-01"; "2024-05-02"])));
             DaySelected "2024-05-02"]).
  { split; [exact I|]. split; [|exact I].
    split; [reflexivity|]. split; [discriminate|].
    exists (sample_data ["2024-05-01"; "2024-05-02"]). split; [reflexivity|].
    cbn. in_list. }
  destruct (ready_selection sample_platform empty_storage 0 [] _ Hoffered) as [Hvalid _].
  exact (Hvalid eq_refl).
Defined.

(** C1, as stated, fails when the initial fetch brings an empty dayOrder:
    the forecast is ready and no day is selected, so the selected day is
    not a member of dayOrder. *)
Lemma ready_without_selected_day :
  weatherStatus dayless_page = weather_ready
  /\ weatherData dayless_page = Some (sample_data [])
  /\ selectedDay dayless_page = None
  /\ ~ exists d, selectedDay dayless_page = Some d /\ d ∈ WeatherData.dayOrder (sample_data []).
Proof.
  split; [reflexivity|]. split; [reflexivity|]. split; [reflexivity|].
  intros (d & Hd & _). discriminate Hd.
Qed.

(** ** Cycles and their activity flags *)

Lemma identityView_eq (a a' : App) :
  identityView a' = identityView a ->
  mounted a' = mounted a /\ selectedLocation a' = selectedLocation a
  /\ units a' = units a /\ nextAddr a' = nextAddr a.
Proof. unfold identityView. by intros [= -> -> -> ->]. Qed.

Lemma wf_same (a a' : App) :
  cycles a' = cycles a -> identityView a' = identityView a -> cycles_wf a -> cycles_wf a'.
Proof.
  unfold cycles_wf, identityView, current. intros -> [= -> -> _ ->]. tauto.
Qed.

Lemma weatherCleanup_cycles (c : nat) (a : App) :
  cycles (weatherCleanup c a) = alter (set_isActive false) c (cycles a).
Proof.
  unfold weatherCleanup.
  destruct (cycles a !! c ≫= intervalId) as [iid|]; [|reflexivity].
  by destruct (negb _).
Qed.

Lemma weatherCleanup_identity (c : nat) (a : App) :
  identityView (weatherCleanup c a) = identityView a.
Proof.
  unfold weatherCleanup.
  destruct (cycles a !! c ≫= intervalId) as [iid|]; [|reflexivity].
  by destruct (negb _).
Qed.

Lemma weatherEffect_cycles (a : App) :
  cycles (weatherEffect a)
  = alter (set_intervalId (Some (nextIntervalId a))) (length (cycles a))
      (cycles a ++ [mkCycle true None (selectedLocation a) (units a)]).
Proof. by rewrite weatherEffect_unfold. Qed.

Lemma weatherEffect_identity (a : App) :
  identityView (weatherEffect a) = identityView a.
Proof. by rewrite weatherEffect_unfold. Qed.

Lemma weatherEffect_current (a : App) : current (weatherEffect a) = length (cycles a).
Proof.
  unfold current. rewrite weatherEffect_cycles, length_alter, length_app. cbn. lia.
Qed.

Lemma cleanup_all_inactive (a : App) :
  cycles_wf a -> all_inactive (weatherCleanup (current a) a).
Proof.
  intros (Hactive & _ & _) i cy. rewrite weatherCleanup_cycles.
  destruct (decide (i = current a)) as [->|Hi].
  - rewrite list_lookup_alter_eq. destruct (cycles a !! current a); [|discriminate].
    by intros [= <-].
  - rewrite list_lookup_alter_ne by congruence. intros Hcy.
    destruct (isActive cy) eqn:Hflag; [|reflexivity].
    by destruct (Hactive i cy Hcy Hflag).
Qed.

Lemma all_inactive_wf (a : App) :
  all_inactive a -> addr (selectedLocation a) < nextAddr a -> 0 < length (cycles a) ->
  cycles_wf a.
Proof.
  intros Hoff Haddr Hlen. split; [|by split].
  intros i cy Hcy Hflag. rewrite (Hoff i cy Hcy) in Hflag. discriminate.
Qed.

Lemma weatherEffect_wf (a : App) :
  all_inactive a -> mounted a = true -> addr (selectedLocation a) < nextAddr a ->
  cycles_wf (weatherEffect a).
Proof.
  intros Hoff Hmounted Haddr.
  destruct (identityView_eq _ _ (weatherEffect_identity a)) as (Hm & Hloc & _ & Hnext).
  split; [|split].
  - intros i cy. rewrite weatherEffect_current, weatherEffect_cycles, Hm.
    destruct (decide (i = length (cycles a))) as [->|Hi]; [by split|].
    rewrite list_lookup_alter_ne by congruence.
    destruct (decide (i < length (cycles a))) as [Hlt|Hge].
    + rewrite lookup_app_l by assumption. intros Hcy Hflag.
      rewrite (Hoff i cy Hcy) in Hflag. discriminate.
    + rewrite lookup_ge_None_2; [discriminate|]. rewrite length_app. cbn. lia.
  - by rewrite Hloc, Hnext.
  - rewrite weatherEffect_cycles, length_alter, length_app. cbn. lia.
Qed.

Lemma commit_wf (before after : App) :
  cycles_wf before ->
  cycles after = cycles before ->
  mounted after = true ->
  addr (selectedLocation after) < nextAddr after ->
  cycles_wf (commit before after).
Proof.
  intros Hbefore Hcycles Hmounted Haddr.
  assert (Hafter : cycles_wf after).
  { destruct Hbefore as (Hactive & _ & Hlen). unfold cycles_wf, current.
    rewrite Hcycles, Hmounted. split; [|by split].
    intros i cy Hcy Hflag. by destruct (Hactive i cy Hcy Hflag). }
  unfold commit. destruct (depsChanged _ _); [|assumption].
  replace (current before) with (current after) by (unfold current; by rewrite Hcycles).
  destruct (identityView_eq _ _ (weatherCleanup_identity (current after) after))
    as (Hm & Hloc & _ & Hnext).
  apply weatherEffect_wf.
  - by apply cleanup_all_inactive.
  - by rewrite Hm.
  - by rewrite Hloc, Hnext.
Qed.

Lemma reloadEffect_cycles (a : App) :
  cycles (reloadEffect a) = cycles a /\ identityView (reloadEffect a) = identityView a.
Proof. by split. Qed.

Lemma boot_wf (p : Platform) (ls : Storage) (t : N) (log : list Request) :
  cycles_wf (boot p ls t log).
Proof.
  unfold boot. destruct (reloadEffect_cycles (weatherEffect (firstRender p ls t log))).
  apply (wf_same (weatherEffect (firstRender p ls t log))); [assumption | assumption |].
  apply weatherEffect_wf; [|reflexivity | unfold firstRender; cbn; lia].
  intros i cy Hcy. unfold firstRender in Hcy. cbn in Hcy. by rewrite lookup_nil in Hcy.
Qed.

Lemma autoRefreshTick_cycles (c : nat) (a : App) :
  cycles (autoRefreshTick c a) = cycles a
  /\ identityView (autoRefreshTick c a) = identityView a.
Proof.
  unfold autoRefreshTick. destruct (cycles a !! c) as [cy|] eqn:Hc; [|by split].
  destruct (isActive cy && _); [|by split].
  by rewrite (fetchWeather_known _ _ _ _ Hc).
Qed.

Lemma fetchWeather_settled_cycles (c : nat) (isAutoRefresh : bool)
  (outcome : Outcome WeatherData.t) (a : App) :
  cycles (fetchWeather_settled c isAutoRefresh outcome a) = cycles a
  /\ identityView (fetchWeather_settled c isAutoRefresh outcome a) = identityView a.
Proof.
  unfold fetchWeather_settled.
  destruct outcome, (negb (cycle_isActive c a)), isAutoRefresh; by split.
Qed.

Lemma handleSearch_settled_cycles (outcome : Outcome (list LocationMatch.t)) (a : App) :
  cycles (handleSearch_settled outcome a) = cycles a
  /\ identityView (handleSearch_settled outcome a) = identityView a.
Proof.
  unfold handleSearch_settled.
  destruct outcome as [results|error]; [destruct (_ =? _)|]; by split.
Qed.

Lemma step_wf (e : Event) (a : App) : cycles_wf a -> cycles_wf (step e a).
Proof.
  intros Ha. pose proof Ha as (_ & Haddr & _). destruct e; cbn [step].
  - destruct (mounted a) eqn:Hm; [|assumption]. by apply commit_wf.
  - destruct (mounted a) eqn:Hm; [|assumption]. apply commit_wf; try assumption;
      cbn [handle]; unfold handleSearch; by destruct (negb _).
  - destruct (mounted a) eqn:Hm; [|assumption]. apply commit_wf; try done.
    cbn. lia.
  - destruct (mounted a) eqn:Hm; [|assumption]. apply commit_wf; try done.
    cbn. lia.
  - destruct (mounted a) eqn:Hm; [|assumption]. by apply commit_wf.
  - destruct (mounted a) eqn:Hm; [|assumption]. by apply commit_wf.
  - unfold settle. destruct (pending a !! rid) as [r|]; [|assumption].
    destruct r, response; try assumption.
    + destruct (mounted a); [|by apply (wf_same a)].
      destruct (handleSearch_settled_cycles outcome (put_pending (delete rid (pending a)) a)).
      by apply (wf_same a).
    + destruct (fetchWeather_settled_cycles cycle isAutoRefresh outcome
                  (put_pending (delete rid (pending a)) a)).
      by apply (wf_same a).
  - apply elapse_preserves; try assumption.
    + intros b v Hb. by apply (wf_same b).
    + intros b v Hb. by apply (wf_same b).
    + intros b c Hb. destruct (autoRefreshTick_cycles c b). by apply (wf_same b).
    + apply boot_wf.
  - destruct (mounted a) eqn:Hm; [|assumption].
    destruct Ha as (Hactive & _ & Hlen).
    assert (Hcycles : cycles (unmount a) = cycles (weatherCleanup (current a) a)).
    { unfold unmount, reloadCleanup. by destruct (reloadInterval _). }
    assert (Hview : selectedLocation (unmount a) = selectedLocation a
                    /\ nextAddr (unmount a) = nextAddr a).
    { destruct (identityView_eq _ _ (weatherCleanup_identity (current a) a))
        as (_ & Hloc & _ & Hnext).
      rewrite <- Hloc, <- Hnext. unfold unmount, reloadCleanup.
      by destruct (reloadInterval _). }
    destruct Hview as [Hloc Hnext].
    apply all_inactive_wf.
    + intros i cy. rewrite Hcycles. by apply cleanup_all_inactive.
    + by rewrite Hloc, Hnext.
    + by rewrite Hcycles, weatherCleanup_cycles, length_alter.
Qed.

Lemma run_wf (es : list Event) (a : App) : cycles_wf a -> cycles_wf (run es a).
Proof.
  revert a. induction es as [|e es IH]; intros a Ha; [assumption|].
  cbn [run foldl]. by apply IH, step_wf.
Qed.

Lemma restart_current (before after : App) :
  0 < length (cycles before) ->
  cycles after = cycles before ->
  depsChanged before after = true ->
  current (commit before after) = S (current before).
Proof.
  intros Hlen Hcycles Hchanged. unfold commit. rewrite Hchanged.
  rewrite weatherEffect_current, weatherCleanup_cycles, length_alter, Hcycles.
  unfold current. lia.
Qed.

(** C3.  On every page reached from its first render, a forecast request
    that belongs to a cycle other than the current one, or that is still
    pending after the component was unmounted, finds its cycle's activity
    flag cleared, and its completion, fulfilled or rejected, changes
    nothing: the page is as before with the request no longer pending.
    Selecting a location, and changing the units to another system, tears
    the current cycle down and starts the next one, so that every request
    pending at that moment belongs to a superseded cycle from then on. *)
Theorem superseded_completion_discarded (p : Platform) (ls : Storage) (t : N)
  (log : list Request) (es : list Event) :
  let a := run es (boot p ls t log) in
  (forall rid c isAutoRefresh loc u outcome,
     pending a !! rid = Some (fetchWeatherForecast c isAutoRefresh loc u) ->
     c <> current a \/ mounted a = false ->
     cycle_isActive c a = false
     /\ step (Settled rid (forecast outcome)) a = put_pending (delete rid (pending a)) a)
  /\ (mounted a = true ->
      (forall location, current (step (ResultSelected location) a) = S (current a))
      /\ (forall system, system <> units a ->
          current (step (UnitsChanged system) a) = S (current a))).
Proof.
  cbn zeta. pose proof (run_wf es _ (boot_wf p ls t log)) as Hwf.
  set (a := run es (boot p ls t log)) in *. destruct Hwf as (Hactive & Haddr & Hlen).
  split.
  - intros rid c isAutoRefresh loc u outcome Hpending Hstale.
    assert (Hflag : cycle_isActive c a = false).
    { unfold cycle_isActive. destruct (cycles a !! c) as [cy|] eqn:Hc; [|reflexivity].
      destruct (isActive cy) eqn:Hcy; [|reflexivity].
      destruct (Hactive c cy Hc Hcy) as [Hm Hcur].
      destruct Hstale as [Hne | Hun]; [by destruct Hne | congruence]. }
    split; [exact Hflag|].
    rewrite (settle_forecast _ _ _ _ _ _ _ Hpending).
    unfold fetchWeather_settled. rewrite cycle_isActive_put_pending, Hflag.
    by destruct outcome.
  - intros Hmounted. split.
    + intros location. cbn [step]. rewrite Hmounted.
      apply restart_current; [assumption | reflexivity |].
      unfold depsChanged. cbn.
      replace (addr (selectedLocation a) =? nextAddr a) with false; [reflexivity|].
      symmetry. apply Nat.eqb_neq. lia.
    + intros system Hsystem. cbn [step]. rewrite Hmounted.
      apply restart_current; [assumption | reflexivity |].
      unfold depsChanged. cbn.
      rewrite (bool_decide_eq_false_2 (units a = system)) by congruence.
      apply orb_true_r.
Qed.

(** The fresh page after another place was selected: the first request
    is still in flight. *)
Lemma superseded_completion_discarded_witness :
  cycle_isActive 0 (run [ResultSelected paris] fresh_page) = false
  /\ step (Settled 0 (forecast (Fulfilled (sample_data ["2024-05-01"]))))
       (run [ResultSelected paris] fresh_page)
     = put_pending (delete 0 (pending (run [ResultSelected paris] fresh_page)))
         (run [ResultSelected paris] fresh_page).
Proof.
  unfold fresh_page.
  destruct (superseded_completion_discarded sample_platform empty_storage 0 []
              [ResultSelected paris]) as [Hdiscard _].
  apply (Hdiscard 0 0 false (mkRef 0 DEFAULT_LOCATION) metric
           (Fulfilled (sample_data ["2024-05-01"]))).
  - vm_compute. reflexivity.
  - left. vm_compute. discriminate.
Defined.

(** ** The auto-refresh timer *)

Lemma fire_not_due (iv : Interval) (a : App) :
  (forall cur, cur ∈ intervals a -> iv_due cur <> now a) -> fire iv a = a.
Proof.
  intros Hquiet. unfold fire.
  destruct (list_find _ _) as [[i cur]|] eqn:Hfind; [|reflexivity].
  apply list_find_Some in Hfind as (Hcur & _ & _).
  apply list_elem_of_lookup_2 in Hcur.
  by rewrite (proj2 (N.eqb_neq _ _) (Hquiet cur Hcur)).
Qed.

Lemma tick_quiet (a : App) :
  (forall cur, cur ∈ intervals a -> iv_due cur <> N.succ (now a)) ->
  tick a = put_now (N.succ (now a)) a.
Proof.
  intros Hquiet. unfold tick.
  generalize (intervals (put_now (N.succ (now a)) a)) at 1. intros l.
  induction l as [|iv l IH]; [reflexivity|].
  cbn [foldl]. by rewrite fire_not_due.
Qed.

Lemma elapse_quiet (dt : nat) (a : App) :
  (forall cur, cur ∈ intervals a -> (now a + N.of_nat dt < iv_due cur)%N) ->
  step (Elapsed dt) a = put_now (now a + N.of_nat dt) a.
Proof.
  cbn [step]. induction dt as [|dt IH]; intros Hquiet.
  - cbn [Nat.iter]. rewrite N.add_0_r. by destruct a as [r []].
  - rewrite Nat.iter_succ.
    rewrite IH by (intros cur Hcur; specialize (Hquiet cur Hcur); lia).
    rewrite tick_quiet by (intros cur Hcur; specialize (Hquiet cur Hcur); cbn; lia).
    unfold_app. do 2 f_equal. lia.
Qed.

(** The page after its first render, spelled out. *)
Lemma boot_unfold (p : Platform) (ls : Storage) (t : N) (log : list Request) :
  let savedLocation :=
    match loadSavedLocation p ls with Normal v => v | Throw _ => DEFAULT_LOCATION end in
  let savedSearchTerm :=
    match loadSavedSearchTerm ls with Normal v => v | Throw _ => "" end in
  let initial := fetchWeatherForecast 0 false (mkRef 0 savedLocation) metric in
  boot p ls t log
  = mkApp
      (mkReactState savedSearchTerm [] search_idle None (mkRef 0 savedLocation) metric
         None weather_loading None None)
      (mkRuntime p ls
         [mkCycle true (Some 1) (mkRef 0 savedLocation) metric]
         [mkInterval 1 (autoRefresh 0) 1000 (t + 1000); mkInterval 2 reloadPage 60000 (t + 60000)]
         3 (Some 2) (<[0 := initial]> ∅) 1 (log ++ [initial]) t 1 true).
Proof.
  cbn zeta. unfold boot, firstRender. rewrite weatherEffect_unfold. cbn zeta.
  unfold reloadEffect. unfold_app. reflexivity.
Qed.

Lemma fire_autoRefresh (iv cur : Interval) (i c : nat) (a : App) :
  list_find (fun x => iv_id x = iv_id iv) (intervals a) = Some (i, cur) ->
  iv_due cur = now a ->
  iv_callback cur = autoRefresh c ->
  fire iv a
  = autoRefreshTick c
      (put_intervals
         (<[i := mkInterval (iv_id cur) (iv_callback cur) (iv_period cur)
                   (iv_due cur + iv_period cur)]> (intervals a)) a).
Proof.
  intros Hfind Hdue Hcallback. unfold fire.
  by rewrite Hfind, Hdue, N.eqb_refl, Hcallback.
Qed.

(** C5, as the code has it.  A cycle sets its repeating timer, of period
    1000, as soon as its initial request has been issued, without waiting
    for that request to settle; the callback of an active cycle issues an
    auto-refresh request whatever is in flight.  On a page left alone
    after its first render at time [t], nothing is requested during the
    first 999 time units, and at [t + 1000] the first auto-refresh request
    is issued while the initial request is still in flight. *)
Theorem refresh_timer (p : Platform) (ls : Storage) (t : N) (log : list Request) :
  (forall a : App,
     intervals (weatherEffect a)
     = intervals a
       ++ [mkInterval (nextIntervalId a) (autoRefresh (length (cycles a))) 1000 (now a + 1000)])
  /\ (forall (b : App) c cy,
        cycles b !! c = Some cy -> isActive cy = true ->
        pending (autoRefreshTick c b)
        = <[nextRequestId b := fetchWeatherForecast c true (cy_location cy) (cy_units cy)]>
            (pending b))
  /\ let a := boot p ls t log in
     let initial := fetchWeatherForecast 0 false (selectedLocation a) metric in
     let refresh := fetchWeatherForecast 0 true (selectedLocation a) metric in
     pending a = <[0 := initial]> ∅
     /\ issued a = log ++ [initial]
     /\ (forall dt, dt < 1000 ->
         issued (step (Elapsed dt) a) = issued a
         /\ pending (step (Elapsed dt) a) = pending a)
     /\ issued (step (Elapsed 1000) a) = log ++ [initial; refresh]
     /\ pending (step (Elapsed 1000) a) = <[1 := refresh]> (<[0 := initial]> ∅)
     /\ weatherStatus (step (Elapsed 1000) a) = weather_loading.
Proof.
  split; [|split].
  - intros a. by rewrite weatherEffect_unfold.
  - intros b c cy Hc Hactive. by rewrite (autoRefreshTick_active _ _ _ Hc Hactive).
  - cbn zeta. rewrite boot_unfold. cbn zeta.
    set (loc := match loadSavedLocation p ls with Normal v => v | Throw _ => DEFAULT_LOCATION end).
    set (term := match loadSavedSearchTerm ls with Normal v => v | Throw _ => "" end).
    set (a := mkApp _ _).
    assert (Hquiet : forall dt, dt < 1000 ->
              Nat.iter dt tick a = put_now (t + N.of_nat dt) a).
    { intros dt Hdt. apply (elapse_quiet dt a). intros cur Hcur. subst a. cbn in Hcur |- *.
      apply elem_of_cons in Hcur as [-> | Hcur]; [cbn; lia|].
      apply elem_of_cons in Hcur as [-> | Hcur]; [cbn; lia|].
      by apply elem_of_nil in Hcur. }
    split; [reflexivity|]. split; [reflexivity|]. split.
    { intros dt Hdt. cbn [step]. by rewrite Hquiet. }
    assert (Hlast : step (Elapsed 1000) a = tick (put_now (t + 999) a)).
    { change 1000 with (S 999). cbn [step]. rewrite Nat.iter_succ.
      rewrite Hquiet by lia. reflexivity. }
    rewrite Hlast. unfold tick, a. unfold_app. cbn [foldl].
    replace (N.succ (t + 999)) with (t + 1000)%N by lia.
    erewrite (fire_autoRefresh (mkInterval 1 (autoRefresh 0) 1000 (t + 1000)) _ 0 0)
      by reflexivity.
    erewrite autoRefreshTick_active by reflexivity.
    rewrite fire_not_due.
    + unfold_app. cbn [cy_location cy_units]. by rewrite <- app_assoc.
    + intros cur Hcur. unfold_app. cbn in Hcur |- *.
      apply elem_of_cons in Hcur as [-> | Hcur]; [cbn; lia|].
      apply elem_of_cons in Hcur as [-> | Hcur]; [cbn; lia|].
      by apply elem_of_nil in Hcur.
Qed.

(** C5, as stated, fails.  On the fresh page nothing settles for a
    second: the timer comes due and issues an auto-refresh request while
    the initial request of the same cycle is still in flight. *)
Lemma refresh_overlaps_initial_fetch :
  pending (step (Elapsed 999) fresh_page) !! 1 = None
  /\ pending (step (Elapsed 1000) fresh_page) !! 0
     = Some (fetchWeatherForecast 0 false (mkRef 0 DEFAULT_LOCATION) metric)
  /\ pending (step (Elapsed 1000) fresh_page) !! 1
     = Some (fetchWeatherForecast 0 true (mkRef 0 DEFAULT_LOCATION) metric)
  /\ refresh_overlaps_initial (step (Elapsed 1000) fresh_page).
Proof.
  split; [by vm_compute|]. split; [by vm_compute|]. split; [by vm_compute|].
  exists 0, 0, 1, (mkRef 0 DEFAULT_LOCATION), metric, (mkRef 0 DEFAULT_LOCATION), metric.
  split; by vm_compute.
Qed.

(** ** Searching *)

Lemma settle_geocode (a : App) (rid : nat) (query : string)
  (outcome : Outcome (list LocationMatch.t)) :
  pending a !! rid = Some (geocodeLocation query) ->
  mounted a = true ->
  step (Settled rid (geocoded outcome)) a
  = handleSearch_settled outcome (put_pending (delete rid (pending a)) a).
Proof. intros Hpending Hmounted. cbn [step]. unfold settle. by rewrite Hpending, Hmounted. Qed.

(** X1.  Submitting a query whose trimmed text is not empty sets the
    search status to loading, clears the search error and makes exactly
    one geocoding call, with the trimmed text.  The result list of the
    previous search stays as it is, and so do the forecast, the cycles
    and storage. *)
Theorem submit_query (a : App) :
  mounted a = true ->
  trim (searchTerm a) <> "" ->
  searchStatus (step Submitted a) = search_loading
  /\ searchError (step Submitted a) = None
  /\ pending (step Submitted a)
     = <[nextRequestId a := geocodeLocation (trim (searchTerm a))]> (pending a)
  /\ issued (step Submitted a) = issued a ++ [geocodeLocation (trim (searchTerm a))]
  /\ searchResults (step Submitted a) = searchResults a
  /\ searchTerm (step Submitted a) = searchTerm a
  /\ forecastView (step Submitted a) = forecastView a
  /\ cycles (step Submitted a) = cycles a
  /\ localStorage (step Submitted a) = localStorage a.
Proof.
  intros Hmounted Hquery. unfold step. rewrite Hmounted.
  cbn [handle]. unfold handleSearch.
  destruct (truthy (trim (searchTerm a))) eqn:Htruthy;
    [|by apply truthy_false in Htruthy].
  cbn [negb]. rewrite commit_same_deps by reflexivity.
  unfold forecastView. unfold_app. repeat split.
Qed.

(** The page after the user has typed a place, and after the query was
    submitted. *)
Lemma submit_query_witness :
  searchStatus (step Submitted (step (Typed "  Paris ") fresh_page)) = search_loading
  /\ pending (step Submitted (step (Typed "  Paris ") fresh_page)) !! 1
     = Some (geocodeLocation "Paris").
Proof.
  assert (Hmounted : mounted (step (Typed "  Paris ") fresh_page) = true) by by vm_compute.
  assert (Hquery : trim (searchTerm (step (Typed "  Paris ") fresh_page)) <> "")
    by by vm_compute.
  destruct (submit_query _ Hmounted Hquery) as (Hstatus & _ & Hpending & _).
  split; [exact Hstatus|]. rewrite Hpending. by vm_compute.
Defined.

(** X2.  When a search comes back with one match or more, the matches
    become the result list and the search status is idle.  Nothing is
    selected on the user's behalf, not even a single match: the selected
    location, the query text, the forecast, the cycles, storage and the
    log of network calls are untouched. *)
Theorem search_matches (a : App) (rid : nat) (query : string)
  (results : list LocationMatch.t) :
  pending a !! rid = Some (geocodeLocation query) ->
  mounted a = true ->
  results <> [] ->
  let a' := step (Settled rid (geocoded (Fulfilled results))) a in
  searchResults a' = results
  /\ searchStatus a' = search_idle
  /\ selectedLocation a' = selectedLocation a
  /\ searchTerm a' = searchTerm a
  /\ forecastView a' = forecastView a
  /\ cycles a' = cycles a
  /\ intervals a' = intervals a
  /\ localStorage a' = localStorage a
  /\ issued a' = issued a.
Proof.
  intros Hpending Hmounted Hresults. cbn zeta.
  rewrite (settle_geocode _ _ _ _ Hpending Hmounted). unfold handleSearch_settled.
  destruct results as [|first rest]; [congruence|]. cbn [length Nat.eqb].
  unfold forecastView. unfold_app. repeat split.
Qed.

(** The fresh page with a search for "Paris" in flight. *)
Lemma search_matches_witness :
  searchResults
    (step (Settled 1 (geocoded (Fulfilled [paris])))
       (run [Typed "Paris"; Submitted] fresh_page)) = [paris]
  /\ obj (selectedLocation
       (step (Settled 1 (geocoded (Fulfilled [paris])))
          (run [Typed "Paris"; Submitted] fresh_page))) = DEFAULT_LOCATION.
Proof.
  assert (Hpending : pending (run [Typed "Paris"; Submitted] fresh_page) !! 1
                     = Some (geocodeLocation "Paris")) by by vm_compute.
  assert (Hmounted : mounted (run [Typed "Paris"; Submitted] fresh_page) = true)
    by by vm_compute.
  assert (Hresults : [paris] <> []) by discriminate.
  destruct (search_matches _ 1 "Paris" [paris] Hpending Hmounted Hresults)
    as (Hlist & _ & Hloc & _).
  split; [exact Hlist|]. rewrite Hloc. by vm_compute.
Defined.

(** X3.  When a search comes back empty or fails, the forecast is
    cleared: no forecast data, forecast status idle.  An empty answer
    gives search status no-results and an empty result list; a failure
    gives search status error with the message of the failure ("Unknown
    error" for a thrown value that is not an Error) and leaves the result
    list of the previous search in place.  In both cases the selected
    location, the selected day, the cycles and their timers stay. *)
Theorem search_without_matches (a : App) (rid : nat) (query : string) :
  pending a !! rid = Some (geocodeLocation query) ->
  mounted a = true ->
  (let a' := step (Settled rid (geocoded (Fulfilled []))) a in
   searchStatus a' = search_no_results
   /\ searchResults a' = []
   /\ searchError a' = searchError a
   /\ weatherData a' = None /\ weatherStatus a' = weather_idle
   /\ selectedDay a' = selectedDay a /\ weatherError a' = weatherError a
   /\ selectedLocation a' = selectedLocation a
   /\ cycles a' = cycles a /\ intervals a' = intervals a)
  /\ forall error,
       let a' := step (Settled rid (geocoded (Rejected error))) a in
       searchStatus a' = search_error
       /\ searchError a' = Some (messageOr "Unknown error" error)
       /\ searchResults a' = searchResults a
       /\ weatherData a' = None /\ weatherStatus a' = weather_idle
       /\ selectedDay a' = selectedDay a /\ weatherError a' = weatherError a
       /\ selectedLocation a' = selectedLocation a
       /\ cycles a' = cycles a /\ intervals a' = intervals a.
Proof.
  intros Hpending Hmounted. split; [|intros error]; cbn zeta;
    rewrite (settle_geocode _ _ _ _ Hpending Hmounted); unfold handleSearch_settled;
    cbn [length Nat.eqb]; unfold_app; repeat split.
Qed.

Lemma search_without_matches_witness :
  searchStatus
    (step (Settled 1 (geocoded (Rejected (OtherValue "offline"))))
       (run [Typed "Paris"; Submitted] fresh_page)) = search_error
  /\ searchError
       (step (Settled 1 (geocoded (Rejected (OtherValue "offline"))))
          (run [Typed "Paris"; Submitted] fresh_page)) = Some "Unknown error"
  /\ weatherStatus
       (step (Settled 1 (geocoded (Rejected (OtherValue "offline"))))
          (run [Typed "Paris"; Submitted] fresh_page)) = weather_idle.
Proof.
  assert (Hpending : pending (run [Typed "Paris"; Submitted] fresh_page) !! 1
                     = Some (geocodeLocation "Paris")) by by vm_compute.
  assert (Hmounted : mounted (run [Typed "Paris"; Submitted] fresh_page) = true)
    by by vm_compute.
  destruct (search_without_matches _ 1 "Paris" Hpending Hmounted) as [_ Hfailed].
  destruct (Hfailed (OtherValue "offline")) as (Hstatus & Herror & _ & _ & Hweather & _).
  split; [exact Hstatus|]. split; [exact Herror | exact Hweather].
Defined.

(** X4.  Clearing the forecast after a failed search does not last.  The
    cycle of the selected location keeps running: its next timer callback
    issues an auto-refresh request, and when that request is fulfilled the
    forecast is ready again with the new data, the day selected before
    the search being kept by the sticky rule. *)
Theorem forecast_returns_after_failed_search (a : App) (rid c : nat) (query : string)
  (cy : Cycle) (error : Thrown) (data : WeatherData.t) :
  pending a !! rid = Some (geocodeLocation query) ->
  mounted a = true ->
  cycles a !! c = Some cy ->
  isActive cy = true ->
  let cleared := step (Settled rid (geocoded (Rejected error))) a in
  let began := autoRefreshTick c cleared in
  let done := step (Settled (nextRequestId a) (forecast (Fulfilled data))) began in
  weatherStatus cleared = weather_idle
  /\ weatherData cleared = None
  /\ issued began
     = issued a ++ [fetchWeatherForecast c true (cy_location cy) (cy_units cy)]
  /\ weatherStatus done = weather_ready
  /\ weatherData done = Some data
  /\ selectedDay done = keepDay data (selectedDay a).
Proof.
  intros Hpending Hmounted Hc Hactive. cbn zeta.
  rewrite (settle_geocode _ _ _ _ Hpending Hmounted).
  set (cleared := handleSearch_settled _ _).
  assert (Hcycles : cycles cleared = cycles a) by reflexivity.
  assert (Hc' : cycles cleared !! c = Some cy) by by rewrite Hcycles.
  rewrite (autoRefreshTick_active c cy cleared Hc' Hactive).
  split; [reflexivity|]. split; [reflexivity|]. split; [reflexivity|].
  erewrite settle_forecast by (unfold_app; apply lookup_insert_eq).
  unfold fetchWeather_settled. rewrite cycle_isActive_put_pending.
  replace (cycle_isActive c _) with true
    by (unfold cycle_isActive; unfold_app; by rewrite Hc').
  cbn [negb]. unfold_app. repeat split.
Qed.

Lemma forecast_returns_after_failed_search_witness :
  weatherStatus
    (step (Settled 2 (forecast (Fulfilled (sample_data ["2024-05-01"; "2024-05-02"]))))
       (autoRefreshTick 0
          (step (Settled 1 (geocoded (Rejected (ErrorObject "Failed to fetch"))))
             (run [Settled 0 (forecast (Fulfilled (sample_data ["2024-05-01"])));
                   Typed "Paris"; Submitted] fresh_page)))) = weather_ready.
Proof.
  assert (Hpending :
    pending (run [Settled 0 (forecast (Fulfilled (sample_data ["2024-05-01"])));
                  Typed "Paris"; Submitted] fresh_page) !! 1
    = Some (geocodeLocation "Paris")) by by vm_compute.
  assert (Hmounted :
    mounted (run [Settled 0 (forecast (Fulfilled (sample_data ["2024-05-01"])));
                  Typed "Paris"; Submitted] fresh_page) = true) by by vm_compute.
  assert (Hc :
    cycles (run [Settled 0 (forecast (Fulfilled (sample_data ["2024-05-01"])));
                 Typed "Paris"; Submitted] fresh_page) !! 0
    = Some (mkCycle true (Some 1) (mkRef 0 DEFAULT_LOCATION) metric)) by by vm_compute.
  destruct (forecast_returns_after_failed_search _ 1 0 "Paris" _
              (ErrorObject "Failed to fetch")
              (sample_data ["2024-05-01"; "2024-05-02"]) Hpending Hmounted Hc eq_refl)
    as (_ & _ & _ & Hready & _).
  exact Hready.
Defined.

(** ** What is persisted *)

(** As [Timers], for a property that a reload keeps rather than
    establishes. *)
Section TimersKeep.
Variable P : App -> Prop.
Hypothesis P_put_now : forall a v, P a -> P (put_now v a).
Hypothesis P_put_intervals : forall a v, P a -> P (put_intervals v a).
Hypothesis P_autoRefreshTick : forall a c, P a -> P (autoRefreshTick c a).
Hypothesis P_reload : forall a, P a -> P (reload a).

Lemma fire_keeps (iv : Interval) (a : App) : P a -> P (fire iv a).
Proof using P_put_intervals P_autoRefreshTick P_reload.
  intros Ha. unfold fire.
  destruct (list_find _ _) as [[i cur]|]; [|assumption].
  destruct (_ =? _)%N; [|assumption].
  destruct (iv_callback cur).
  - by apply P_autoRefreshTick, P_put_intervals.
  - by apply P_reload, P_put_intervals.
Qed.

Lemma tick_keeps (a : App) : P a -> P (tick a).
Proof using All.
  intros Ha. unfold tick.
  generalize (intervals (put_now (N.succ (now a)) a)).
  assert (Hstart : P (put_now (N.succ (now a)) a)) by by apply P_put_now.
  revert Hstart. generalize (put_now (N.succ (now a)) a).
  intros acc Hacc l. revert acc Hacc.
  induction l as [|iv l IH]; intros acc Hacc; [assumption|].
  cbn [foldl]. by apply IH, fire_keeps.
Qed.

Lemma elapse_keeps (dt : nat) (a : App) : P a -> P (Nat.iter dt tick a).
Proof using All.
  intros Ha.
  induction dt as [|dt IH]; [assumption|].
  cbn [Nat.iter]. by apply tick_keeps.
Qed.
End TimersKeep.

Lemma boot_storage (p : Platform) (ls : Storage) (t : N) (log : list Request) :
  localStorage (boot p ls t log) = ls /\ platform (boot p ls t log) = p.
Proof. by rewrite boot_unfold. Qed.

Lemma weatherEffect_storage (a : App) :
  localStorage (weatherEffect a) = localStorage a
  /\ platform (weatherEffect a) = platform a.
Proof. by rewrite weatherEffect_unfold. Qed.

Lemma weatherCleanup_storage (c : nat) (a : App) :
  localStorage (weatherCleanup c a) = localStorage a
  /\ platform (weatherCleanup c a) = platform a.
Proof.
  unfold weatherCleanup.
  destruct (cycles a !! c ≫= intervalId) as [iid|]; [|by split].
  by destruct (negb _).
Qed.

Lemma commit_storage (before after : App) :
  localStorage (commit before after) = localStorage after
  /\ platform (commit before after) = platform after.
Proof.
  unfold commit. destruct (depsChanged _ _); [|by split].
  destruct (weatherEffect_storage (weatherCleanup (current before) after)) as [-> ->].
  apply weatherCleanup_storage.
Qed.

Lemma autoRefreshTick_storage (c : nat) (a : App) :
  localStorage (autoRefreshTick c a) = localStorage a
  /\ platform (autoRefreshTick c a) = platform a.
Proof.
  unfold autoRefreshTick. destruct (cycles a !! c) as [cy|] eqn:Hc; [|by split].
  destruct (isActive cy && _); [|by split].
  by rewrite (fetchWeather_known _ _ _ _ Hc).
Qed.

Lemma elapse_storage (dt : nat) (a : App) :
  localStorage (Nat.iter dt tick a) = localStorage a
  /\ platform (Nat.iter dt tick a) = platform a.
Proof.
  apply (elapse_keeps
           (fun b => localStorage b = localStorage a /\ platform b = platform a)).
  - by intros b v Hb.
  - by intros b v Hb.
  - intros b c [<- <-]. apply autoRefreshTick_storage.
  - intros b [<- <-]. unfold reload. apply boot_storage.
  - by split.
Qed.

Lemma saveSelection_other (p : Platform) (location : LocationMatch.t) (text : string)
  (ls : Storage) (key : string) :
  key <> "selectedLocation" -> key <> "searchTerm" ->
  getItem (saveSelection p location text ls) key = getItem ls key.
Proof.
  intros Hloc Hterm. unfold saveSelection.
  destruct (setItem ls _ _) as [ls1|error] eqn:Hfirst; [|reflexivity].
  destruct (getItem_setItem _ _ _ _ Hfirst) as [_ Hother1].
  destruct (setItem ls1 _ _) as [ls2|error] eqn:Hsecond; [|by apply Hother1].
  destruct (getItem_setItem _ _ _ _ Hsecond) as [_ Hother2].
  rewrite Hother2 by assumption. by apply Hother1.
Qed.

(** What storage holds after an event. *)
Lemma step_storage (e : Event) (a : App) :
  localStorage (step e a)
  = match e with
    | ResultSelected location =>
        if mounted a
        then saveSelection (platform a) location (locationString location) (localStorage a)
        else localStorage a
    | TryAgain =>
        if mounted a
        then saveSelection (platform a) (obj (selectedLocation a))
               (locationString (obj (selectedLocation a))) (localStorage a)
        else localStorage a
    | _ => localStorage a
    end.
Proof.
  destruct e; cbn [step].
  - destruct (mounted a); [|reflexivity]. by destruct (commit_storage a (handle (Typed text) a)) as [-> _].
  - destruct (mounted a); [|reflexivity].
    destruct (commit_storage a (handle Submitted a)) as [-> _].
    cbn [handle]. unfold handleSearch. by destruct (negb _).
  - destruct (mounted a); [|reflexivity].
    destruct (commit_storage a (handle (ResultSelected location) a)) as [-> _].
    cbn [handle]. rewrite handleLocationSelection_unfold. reflexivity.
  - destruct (mounted a); [|reflexivity].
    destruct (commit_storage a (handle TryAgain a)) as [-> _].
    cbn [handle]. rewrite handleLocationSelection_unfold. reflexivity.
  - destruct (mounted a); [|reflexivity].
    by destruct (commit_storage a (handle (UnitsChanged system) a)) as [-> _].
  - destruct (mounted a); [|reflexivity].
    by destruct (commit_storage a (handle (DaySelected day) a)) as [-> _].
  - unfold settle. destruct (pending a !! rid) as [r|]; [|reflexivity].
    destruct r, response; try reflexivity.
    + destruct (mounted a); [|reflexivity]. unfold handleSearch_settled.
      destruct outcome as [results|error]; [destruct (_ =? _)|]; reflexivity.
    + unfold fetchWeather_settled.
      by destruct outcome, (negb (cycle_isActive _ _)), isAutoRefresh.
  - apply elapse_storage.
  - destruct (mounted a); [|reflexivity]. unfold unmount, reloadCleanup.
    transitivity (localStorage (weatherCleanup (current a) a));
      [by destruct (reloadInterval _) | apply weatherCleanup_storage].
Qed.

(** X5.  Storage is written by a selection and by nothing else: typing,
    submitting a search, a settling request, a change of units, a picked
    day, passing time (the page reload included) and unmounting leave it
    exactly as it is.  A selection, or the retry button, writes under the
    keys "selectedLocation" and "searchTerm" only: every other key reads
    as before. *)
Theorem only_selection_persists (e : Event) (a : App) :
  ((forall location, e <> ResultSelected location) -> e <> TryAgain ->
   localStorage (step e a) = localStorage a)
  /\ forall key, key <> "selectedLocation" -> key <> "searchTerm" ->
       getItem (localStorage (step e a)) key = getItem (localStorage a) key.
Proof.
  rewrite step_storage. split.
  - intros Hselect Hretry. destruct e; try reflexivity.
    + by destruct (Hselect location).
    + by destruct Hretry.
  - intros key Hloc Hterm.
    destruct e; try reflexivity; destruct (mounted a); try reflexivity;
      by apply saveSelection_other.
Qed.

Lemma reload_loads (a : App) :
  obj (selectedLocation (reload a))
  = match loadSavedLocation (platform a) (localStorage a) with
    | Normal v => v
    | Throw _ => DEFAULT_LOCATION
    end
  /\ searchTerm (reload a)
     = match loadSavedSearchTerm (localStorage a) with Normal v => v | Throw _ => "" end
  /\ units (reload a) = metric
  /\ searchResults (reload a) = []
  /\ weatherData (reload a) = None
  /\ selectedDay (reload a) = None.
Proof. unfold reload. by rewrite boot_unfold. Qed.

(** X6.  A selection survives the page reload.  When storage accepts both
    writes and the platform's JSON functions round-trip the location, the
    reloaded page starts with that location selected and with its search
    text in the query field.  Two edges: a location whose name and country
    are both empty is saved with an empty search text, which the reloaded
    page replaces by "San Francisco, United States"; and the unit system
    is not saved at all, the reloaded page is metric. *)
Theorem selection_survives_reload (location : LocationMatch.t) (a : App)
  (ls1 ls2 : Storage) :
  mounted a = true ->
  setItem (localStorage a) "selectedLocation" (JSON_stringify (platform a) location)
    = Normal ls1 ->
  setItem ls1 "searchTerm" (locationString location) = Normal ls2 ->
  JSON_stringify (platform a) location <> "" ->
  JSON_parse (platform a) (JSON_stringify (platform a) location) = Normal location ->
  let a' := reload (step (ResultSelected location) a) in
  obj (selectedLocation a') = location
  /\ (locationString location <> "" -> searchTerm a' = locationString location)
  /\ (locationString location = "" -> searchTerm a' = "San Francisco, United States")
  /\ units a' = metric.
Proof.
  intros Hmounted Hfirst Hsecond Htext Hparse. cbn zeta.
  destruct (reload_loads (step (ResultSelected location) a))
    as (Hloc & Hterm & Hunits & _).
  rewrite Hloc, Hterm, Hunits, step_storage, Hmounted. clear Hloc Hterm Hunits.
  assert (Hplatform : platform (step (ResultSelected location) a) = platform a).
  { cbn [step]. rewrite Hmounted.
    by destruct (commit_storage a (handle (ResultSelected location) a)) as [_ ->]. }
  rewrite Hplatform. unfold saveSelection. rewrite Hfirst, Hsecond.
  destruct (getItem_setItem _ _ _ _ Hfirst) as [Hsaved _].
  destruct (getItem_setItem _ _ _ _ Hsecond) as [Hsaved' Hother].
  assert (Hget : getItem ls2 "selectedLocation"
                 = Normal (Some (JSON_stringify (platform a) location)))
    by (rewrite Hother by discriminate; exact Hsaved).
  unfold loadSavedLocation, loadSavedLocation_try, loadSavedSearchTerm,
    loadSavedSearchTerm_try.
  rewrite Hget, Hsaved'. cbn.
  destruct (truthy (JSON_stringify (platform a) location)) eqn:Htruthy;
    [|by apply truthy_false in Htruthy].
  rewrite Hparse. cbn. split; [reflexivity|].
  destruct (truthy (locationString location)) eqn:Hstring.
  - split; [reflexivity|]. split; [|reflexivity]. intros Hempty.
    rewrite Hempty in Hstring. discriminate.
  - apply truthy_false in Hstring. split; [congruence|]. by split.
Qed.

Lemma selection_survives_reload_witness :
  obj (selectedLocation (reload (step (ResultSelected paris) fresh_page))) = paris
  /\ searchTerm (reload (step (ResultSelected paris) fresh_page)) = "Paris, France".
Proof.
  assert (Hmounted : mounted fresh_page = true) by (vm_compute; reflexivity).
  assert (Hfirst :
    setItem (localStorage fresh_page) "selectedLocation"
      (JSON_stringify (platform fresh_page) paris)
    = Normal (mkStorage true 5000 (<["selectedLocation" := sample_stringify paris]> ∅)))
    by (vm_compute; reflexivity).
  assert (Hsecond :
    setItem (mkStorage true 5000 (<["selectedLocation" := sample_stringify paris]> ∅))
      "searchTerm" (locationString paris)
    = Normal (mkStorage true 5000
        (<["searchTerm" := "Paris, France"]>
           (<["selectedLocation" := sample_stringify paris]> ∅))))
    by (vm_compute; reflexivity).
  assert (Htext : JSON_stringify (platform fresh_page) paris <> "")
    by (vm_compute; discriminate).
  assert (Hparse : JSON_parse (platform fresh_page) (JSON_stringify (platform fresh_page) paris)
                   = Normal paris) by (vm_compute; reflexivity).
  destruct (selection_survives_reload paris fresh_page _ _
              Hmounted Hfirst Hsecond Htext Hparse) as (Hloc & Hterm & _).
  split; [exact Hloc|]. apply Hterm. vm_compute. discriminate.
Defined.

(** X7.  Persistence is best effort.  When storage refuses the first
    write (storage disabled, quota exceeded) nothing is saved; when it
    accepts the first and refuses the second, the new location is saved
    beside the query text of the previous selection.  The selection itself
    takes effect all the same: the copy is published, the query text is
    rewritten, the result list is emptied and the search status is idle. *)
Theorem selection_with_refused_write (location : LocationMatch.t) (a : App) :
  let a' := handleLocationSelection location a in
  (obj (selectedLocation a') = location
   /\ searchTerm a' = locationString location
   /\ searchResults a' = []
   /\ searchStatus a' = search_idle)
  /\ (st_enabled (localStorage a) = false -> localStorage a' = localStorage a)
  /\ (forall error,
        setItem (localStorage a) "selectedLocation" (JSON_stringify (platform a) location)
          = Throw error ->
        localStorage a' = localStorage a)
  /\ (forall ls1 error,
        setItem (localStorage a) "selectedLocation" (JSON_stringify (platform a) location)
          = Normal ls1 ->
        setItem ls1 "searchTerm" (locationString location) = Throw error ->
        getItem (localStorage a') "selectedLocation"
          = Normal (Some (JSON_stringify (platform a) location))
        /\ getItem (localStorage a') "searchTerm" = getItem (localStorage a) "searchTerm").
Proof.
  cbn zeta. rewrite handleLocationSelection_unfold. unfold_app.
  split; [by repeat split|]. unfold saveSelection. split; [|split].
  - intros Hoff. unfold setItem. by rewrite Hoff.
  - intros error ->. reflexivity.
  - intros ls1 error Hfirst Hsecond. rewrite Hfirst, Hsecond.
    destruct (getItem_setItem _ _ _ _ Hfirst) as [Hsaved Hother].
    split; [exact Hsaved | by apply Hother].
Qed.

(** A storage with room for the location and not for the search text as
    well. *)
Lemma selection_with_refused_write_witness :
  getItem (localStorage
             (handleLocationSelection paris
                (put_localStorage (mkStorage true 40 ∅) fresh_page))) "selectedLocation"
  = Normal (Some (sample_stringify paris))
  /\ getItem (localStorage
                (handleLocationSelection paris
                   (put_localStorage (mkStorage true 40 ∅) fresh_page))) "searchTerm"
     = Normal None.
Proof.
  destruct (selection_with_refused_write paris
              (put_localStorage (mkStorage true 40 ∅) fresh_page))
    as (_ & _ & _ & Hpartial).
  destruct (Hpartial
              (mkStorage true 40 (<["selectedLocation" := sample_stringify paris]> ∅))
              QuotaExceededError) as [Hloc Hterm].
  - vm_compute. reflexivity.
  - vm_compute. reflexivity.
  - split; [exact Hloc|]. rewrite Hterm. vm_compute. reflexivity.
Defined.

(** ** Restarting the cycle *)

Lemma weatherCleanup_rest (c : nat) (a : App) :
  react (weatherCleanup c a) = react a
  /\ pending (weatherCleanup c a) = pending a
  /\ nextRequestId (weatherCleanup c a) = nextRequestId a
  /\ issued (weatherCleanup c a) = issued a.
Proof.
  unfold weatherCleanup.
  destruct (cycles a !! c ≫= intervalId) as [iid|]; [|by repeat split].
  by destruct (negb _).
Qed.

(** The page after a render that re-ran the effect, spelled out. *)
Lemma commit_restart (before after : App) :
  depsChanged before after = true ->
  cycles after = cycles before ->
  0 < length (cycles before) ->
  let call :=
    fetchWeatherForecast (S (current before)) false (selectedLocation after) (units after) in
  current (commit before after) = S (current before)
  /\ cycle_isActive (current before) (commit before after) = false
  /\ cycle_isActive (S (current before)) (commit before after) = true
  /\ weatherStatus (commit before after) = weather_loading
  /\ weatherError (commit before after) = None
  /\ pending (commit before after) = <[nextRequestId after := call]> (pending after)
  /\ issued (commit before after) = issued after ++ [call]
  /\ weatherData (commit before after) = weatherData after
  /\ selectedDay (commit before after) = selectedDay after.
Proof.
  intros Hchanged Hcycles Hlen. cbn zeta.
  split; [by apply restart_current|].
  unfold commit. rewrite Hchanged.
  set (cleaned := weatherCleanup (current before) after).
  destruct (weatherCleanup_rest (current before) after) as (Hreact & Hpending & Hnext & Hlog).
  assert (Hcleaned : cycles cleaned = alter (set_isActive false) (current before) (cycles before))
    by (unfold cleaned; by rewrite weatherCleanup_cycles, Hcycles).
  assert (Hcount : length (cycles cleaned) = S (current before))
    by (rewrite Hcleaned, length_alter; unfold current; lia).
  rewrite weatherEffect_unfold. cbn zeta. unfold_app.
  fold cleaned in Hreact, Hpending, Hnext, Hlog.
  rewrite Hreact, Hpending, Hnext, Hlog, Hcount.
  split; [|split; [|by repeat split]].
  - unfold cycle_isActive. unfold_app.
    rewrite list_lookup_alter_ne by lia.
    rewrite lookup_app_l by lia. rewrite Hcleaned, list_lookup_alter_eq.
    by destruct (cycles before !! current before).
  - unfold cycle_isActive. unfold_app.
    rewrite list_lookup_alter_eq. rewrite <- Hcount.
    by rewrite list_lookup_middle.
Qed.

(** X8.  Selecting a location always restarts the forecast cycle, also
    when the place selected is the one already shown (the retry button
    does exactly that): the published copy is a new object, so the effect
    runs again.  The old cycle is deactivated, the new one is active, the
    status is loading, the error is cleared, and one initial request for
    the selected place and the current units is issued.  The forecast data
    and the selected day of the previous cycle stay until that request
    settles. *)
Theorem selection_restarts_cycle (p : Platform) (ls : Storage) (t : N)
  (log : list Request) (es : list Event) :
  let a := run es (boot p ls t log) in
  mounted a = true ->
  (forall location,
     let a' := step (ResultSelected location) a in
     let call :=
       fetchWeatherForecast (S (current a)) false (mkRef (nextAddr a) location) (units a) in
     current a' = S (current a)
     /\ cycle_isActive (current a) a' = false
     /\ cycle_isActive (S (current a)) a' = true
     /\ weatherStatus a' = weather_loading
     /\ weatherError a' = None
     /\ pending a' = <[nextRequestId a := call]> (pending a)
     /\ issued a' = issued a ++ [call]
     /\ weatherData a' = weatherData a
     /\ selectedDay a' = selectedDay a)
  /\ (let a' := step TryAgain a in
      let call :=
        fetchWeatherForecast (S (current a)) false
          (mkRef (nextAddr a) (obj (selectedLocation a))) (units a) in
      current a' = S (current a)
      /\ weatherStatus a' = weather_loading
      /\ weatherError a' = None
      /\ pending a' = <[nextRequestId a := call]> (pending a)
      /\ searchTerm a' = locationString (obj (selectedLocation a))).
Proof.
  cbn zeta. pose proof (run_wf es _ (boot_wf p ls t log)) as Hwf.
  set (a := run es (boot p ls t log)) in *. destruct Hwf as (_ & Haddr & Hlen).
  intros Hmounted.
  assert (Hfresh : (addr (selectedLocation a) =? nextAddr a) = false)
    by (apply Nat.eqb_neq; lia).
  split.
  - intros location. cbn [step handle]. rewrite Hmounted.
    rewrite handleLocationSelection_unfold.
    match goal with |- context [commit a ?after] => set (next := after) end.
    assert (Hchanged : depsChanged a next = true)
      by (unfold depsChanged, next; unfold_app; by rewrite Hfresh).
    apply (commit_restart a next Hchanged eq_refl Hlen).
  - cbn [step handle]. rewrite Hmounted. rewrite handleLocationSelection_unfold.
    match goal with |- context [commit a ?after] => set (next := after) end.
    assert (Hchanged : depsChanged a next = true)
      by (unfold depsChanged, next; unfold_app; by rewrite Hfresh).
    destruct (commit_restart a next Hchanged eq_refl Hlen)
      as (Hcur & _ & _ & Hstatus & Herror & Hpending & _).
    split; [exact Hcur|]. split; [exact Hstatus|]. split; [exact Herror|].
    split; [exact Hpending|].
    unfold commit. rewrite Hchanged.
    transitivity (searchTerm (weatherCleanup (current a) next)).
    + by rewrite weatherEffect_unfold.
    + by destruct (weatherCleanup_rest (current a) next) as [-> _].
Qed.

(** The place already shown is selected once more. *)
Lemma selection_restarts_cycle_witness :
  current (step (ResultSelected DEFAULT_LOCATION) fresh_page) = 1
  /\ weatherStatus (step (ResultSelected DEFAULT_LOCATION) fresh_page) = weather_loading.
Proof.
  change fresh_page with (run [] (boot sample_platform empty_storage 0 [])).
  assert (Hmounted : mounted (run [] (boot sample_platform empty_storage 0 [])) = true)
    by (vm_compute; reflexivity).
  destruct (selection_restarts_cycle sample_platform empty_storage 0 [] [] Hmounted)
    as [Hselect _].
  destruct (Hselect DEFAULT_LOCATION) as (Hcur & _ & _ & Hstatus & _).
  split; [exact Hcur | exact Hstatus].
Defined.

Lemma setUnits_same (a : App) : setUnits (units a) a = a.
Proof. by destruct a as [[] []]. Qed.

(** X9.  Choosing the unit system already in use changes nothing at all.
    Choosing the other one restarts the forecast cycle: the status is
    loading, and the one request issued is an initial request for the same
    location object and the new system; the data fetched in the old units
    and the selected day stay until it settles. *)
Theorem units_change (p : Platform) (ls : Storage) (t : N) (log : list Request)
  (es : list Event) :
  let a := run es (boot p ls t log) in
  mounted a = true ->
  step (UnitsChanged (units a)) a = a
  /\ forall system,
       system <> units a ->
       let a' := step (UnitsChanged system) a in
       let call := fetchWeatherForecast (S (current a)) false (selectedLocation a) system in
       units a' = system
       /\ selectedLocation a' = selectedLocation a
       /\ current a' = S (current a)
       /\ cycle_isActive (current a) a' = false
       /\ weatherStatus a' = weather_loading
       /\ pending a' = <[nextRequestId a := call]> (pending a)
       /\ issued a' = issued a ++ [call]
       /\ weatherData a' = weatherData a
       /\ selectedDay a' = selectedDay a.
Proof.
  cbn zeta. pose proof (run_wf es _ (boot_wf p ls t log)) as Hwf.
  set (a := run es (boot p ls t log)) in *. destruct Hwf as (_ & Haddr & Hlen).
  intros Hmounted. split.
  - cbn [step handle]. rewrite Hmounted, setUnits_same.
    by apply commit_same_deps.
  - intros system Hsystem. cbn [step handle]. rewrite Hmounted.
    assert (Hchanged : depsChanged a (setUnits system a) = true).
    { unfold depsChanged. unfold_app.
      rewrite (bool_decide_eq_false_2 (units a = system)) by congruence.
      apply orb_true_r. }
    destruct (commit_restart a (setUnits system a) Hchanged eq_refl Hlen)
      as (Hcur & Hold & _ & Hstatus & _ & Hpending & Hlog & Hdata & Hday).
    split; [|split; [|by repeat split]].
    + unfold commit. rewrite Hchanged.
      transitivity (units (weatherCleanup (current a) (setUnits system a))).
      * by rewrite weatherEffect_unfold.
      * by destruct (weatherCleanup_rest (current a) (setUnits system a)) as [-> _].
    + unfold commit. rewrite Hchanged.
      transitivity (selectedLocation (weatherCleanup (current a) (setUnits system a))).
      * by rewrite weatherEffect_unfold.
      * by destruct (weatherCleanup_rest (current a) (setUnits system a)) as [-> _].
Qed.

Lemma units_change_witness :
  step (UnitsChanged metric) fresh_page = fresh_page
  /\ units (step (UnitsChanged imperial) fresh_page) = imperial
  /\ weatherStatus (step (UnitsChanged imperial) fresh_page) = weather_loading.
Proof.
  change fresh_page with (run [] (boot sample_platform empty_storage 0 [])).
  assert (Hmounted : mounted (run [] (boot sample_platform empty_storage 0 [])) = true)
    by (vm_compute; reflexivity).
  destruct (units_change sample_platform empty_storage 0 [] [] Hmounted)
    as [Hsame Hother].
  split; [exact Hsame|].
  assert (Hsystem : imperial <> units (run [] (boot sample_platform empty_storage 0 [])))
    by (vm_compute; discriminate).
  destruct (Hother imperial Hsystem) as (Hunits & _ & _ & _ & Hstatus & _).
  split; [exact Hunits | exact Hstatus].
Defined.

(** ** Timers *)

Lemma timers_same (a a' : App) :
  timerView a' = timerView a -> timers_wf a -> timers_wf a'.
Proof.
  unfold timerView, timers_wf, is_reload_timer, is_refresh_timer, current.
  intros [= -> -> -> -> ->]. tauto.
Qed.

Lemma weatherCleanup_intervals (c : nat) (a : App) :
  intervals (weatherCleanup c a)
  = match cycles a !! c ≫= intervalId with
    | Some iid =>
        if negb (iid =? 0)
        then filter (fun iv => iv_id iv <> iid) (intervals a)
        else intervals a
    | None => intervals a
    end
  /\ reloadInterval (weatherCleanup c a) = reloadInterval a
  /\ nextIntervalId (weatherCleanup c a) = nextIntervalId a.
Proof.
  unfold weatherCleanup.
  destruct (cycles a !! c ≫= intervalId) as [iid|]; [|by repeat split].
  by destruct (negb _).
Qed.

Lemma cleanup_leaves_reload_timer (a : App) (iv : Interval) :
  timers_wf a ->
  iv ∈ intervals (weatherCleanup (current a) a) ->
  is_reload_timer a iv.
Proof.
  intros (_ & Hall & _). destruct (weatherCleanup_intervals (current a) a) as (-> & _ & _).
  destruct (cycles a !! current a ≫= intervalId) as [iid|] eqn:Hid.
  - destruct (iid =? 0) eqn:Hzero; cbn [negb].
    + apply Nat.eqb_eq in Hzero as ->. intros Hin.
      destruct (Hall iv Hin) as [Hreload | (_ & _ & Hne & Hsame)]; [assumption|].
      congruence.
    + intros [Hkept Hin]%list_elem_of_filter.
      destruct (Hall iv Hin) as [Hreload | (_ & _ & _ & Hsame)]; [assumption|].
      congruence.
  - intros Hin. destruct (Hall iv Hin) as [Hreload | (_ & _ & _ & Hsame)]; [assumption|].
    congruence.
Qed.

Lemma weatherEffect_timers (a : App) :
  intervals (weatherEffect a)
  = intervals a
    ++ [mkInterval (nextIntervalId a) (autoRefresh (length (cycles a))) 1000 (now a + 1000)]
  /\ reloadInterval (weatherEffect a) = reloadInterval a
  /\ nextIntervalId (weatherEffect a) = S (nextIntervalId a).
Proof. by rewrite weatherEffect_unfold. Qed.

Lemma weatherEffect_timers_wf (a : App) :
  0 < nextIntervalId a ->
  (forall iv, iv ∈ intervals a -> is_reload_timer a iv) ->
  mounted a = true ->
  timers_wf (weatherEffect a).
Proof.
  intros Hnext Hall Hmounted.
  destruct (weatherEffect_timers a) as (Hint & Hreload & Hnext').
  destruct (identityView_eq _ _ (weatherEffect_identity a)) as (Hm & _).
  split; [lia|]. split; [|rewrite Hm, Hmounted; discriminate].
  intros iv. rewrite Hint. intros [Hold | Hnew]%elem_of_app.
  - left. destruct (Hall iv Hold) as (Hcallback & Hperiod & Hid).
    split; [assumption|]. split; [assumption|]. congruence.
  - apply list_elem_of_singleton in Hnew as ->.
    right. unfold is_refresh_timer. rewrite weatherEffect_current.
    cbn [iv_callback iv_period iv_id].
    split; [reflexivity|]. split; [reflexivity|]. split; [lia|].
    by rewrite weatherEffect_cycles, list_lookup_alter_eq, new_cycle_lookup.
Qed.

Lemma commit_timers (before after : App) :
  timerView after = timerView before ->
  mounted before = true ->
  timers_wf before ->
  timers_wf (commit before after).
Proof.
  intros Hview Hmounted Hbefore.
  pose proof (timers_same _ _ Hview Hbefore) as Hafter.
  unfold commit. destruct (depsChanged _ _); [|assumption].
  injection Hview as _ Hcycles _ _ Hm.
  replace (current before) with (current after) by (unfold current; by rewrite Hcycles).
  destruct (weatherCleanup_intervals (current after) after) as (_ & Hreload & Hnext).
  destruct (identityView_eq _ _ (weatherCleanup_identity (current after) after))
    as (Hm' & _).
  apply weatherEffect_timers_wf.
  - rewrite Hnext. by destruct Hafter.
  - intros iv Hin.
    destruct (cleanup_leaves_reload_timer after iv Hafter Hin) as (Hcallback & Hperiod & Hid).
    split; [assumption|]. split; [assumption|]. by rewrite Hreload.
  - by rewrite Hm', Hm.
Qed.

Lemma unmount_timers (a : App) :
  timers_wf a -> intervals (unmount a) = [] /\ timers_wf (unmount a).
Proof.
  intros Hwf.
  assert (Hnone : intervals (unmount a) = []).
  { apply elem_of_nil_inv. intros iv. unfold unmount.
    change (iv ∉ intervals (reloadCleanup (weatherCleanup (current a) a))).
    destruct (weatherCleanup_intervals (current a) a) as (_ & Hreload & _).
    unfold reloadCleanup. rewrite Hreload.
    destruct (reloadInterval a) as [rid|] eqn:Hrid.
    - intros [Hkept Hin]%list_elem_of_filter.
      destruct (cleanup_leaves_reload_timer a iv Hwf Hin) as (_ & _ & Hid). congruence.
    - intros Hin.
      destruct (cleanup_leaves_reload_timer a iv Hwf Hin) as (_ & _ & Hid). congruence. }
  split; [assumption|]. destruct Hwf as (Hnext & _ & _).
  split; [|split].
  - unfold unmount, reloadCleanup.
    destruct (weatherCleanup_intervals (current a) a) as (_ & _ & Hnext').
    destruct (reloadInterval _); cbn; lia.
  - rewrite Hnone. intros iv Hin. by apply elem_of_nil in Hin.
  - intros _. assumption.
Qed.

Lemma boot_timers (p : Platform) (ls : Storage) (t : N) (log : list Request) :
  timers_wf (boot p ls t log).
Proof.
  rewrite boot_unfold. cbn zeta. split; [cbn; lia|]. split; [|discriminate].
  intros iv. cbn [intervals runtime].
  intros [-> | [-> | Hin%elem_of_nil]%elem_of_cons]%elem_of_cons; [| |done].
  - right. by repeat split.
  - left. by repeat split.
Qed.

Lemma autoRefreshTick_timerView (c : nat) (a : App) :
  timerView (autoRefreshTick c a) = timerView a.
Proof.
  unfold autoRefreshTick. destruct (cycles a !! c) as [cy|] eqn:Hc; [|reflexivity].
  destruct (isActive cy && _); [|reflexivity].
  by rewrite (fetchWeather_known _ _ _ _ Hc).
Qed.

Lemma fire_timers (iv : Interval) (a : App) : timers_wf a -> timers_wf (fire iv a).
Proof.
  intros Hwf. unfold fire.
  destruct (list_find _ _) as [[i cur]|] eqn:Hfind; [|assumption].
  apply list_find_Some in Hfind as (Hcur & _ & _).
  destruct (_ =? _)%N; [|assumption].
  match goal with |- context [put_intervals ?l a] => set (rescheduled := put_intervals l a) end.
  assert (Hres : timers_wf rescheduled).
  { destruct Hwf as (Hnext & Hall & Hoff). split; [assumption|]. split.
    - intros x [j Hx]%list_elem_of_lookup_1. unfold rescheduled in Hx.
      cbn in Hx. apply list_lookup_insert_Some in Hx as [(_ & <- & _) | (_ & Hx)].
      + apply list_elem_of_lookup_2 in Hcur. destruct (Hall cur Hcur) as [Hr | Hr].
        * by left.
        * by right.
      + apply list_elem_of_lookup_2 in Hx. destruct (Hall x Hx) as [Hr | Hr].
        * by left.
        * by right.
    - intros Hm. cbn in Hm. rewrite (Hoff Hm) in Hcur. by rewrite lookup_nil in Hcur. }
  destruct (iv_callback cur).
  - apply (timers_same rescheduled); [apply autoRefreshTick_timerView | assumption].
  - unfold reload. apply boot_timers.
Qed.

Lemma tick_timers (a : App) : timers_wf a -> timers_wf (tick a).
Proof.
  intros Ha. unfold tick.
  assert (Hstart : timers_wf (put_now (N.succ (now a)) a))
    by (apply (timers_same a); [reflexivity | assumption]).
  revert Hstart. generalize (intervals (put_now (N.succ (now a)) a)).
  generalize (put_now (N.succ (now a)) a).
  intros acc l. revert acc.
  induction l as [|iv l IH]; intros acc Hacc; [assumption|].
  cbn [foldl]. by apply IH, fire_timers.
Qed.

Lemma elapse_timers (dt : nat) (a : App) : timers_wf a -> timers_wf (Nat.iter dt tick a).
Proof.
  intros Ha. induction dt as [|dt IH]; [assumption|].
  cbn [Nat.iter]. by apply tick_timers.
Qed.

Lemma step_timers (e : Event) (a : App) : timers_wf a -> timers_wf (step e a).
Proof.
  intros Ha. destruct e; cbn [step].
  - destruct (mounted a) eqn:Hm; [|assumption]. by apply commit_timers.
  - destruct (mounted a) eqn:Hm; [|assumption]. apply commit_timers; try assumption.
    cbn [handle]. unfold handleSearch. by destruct (negb _).
  - destruct (mounted a) eqn:Hm; [|assumption]. apply commit_timers; try assumption.
    cbn [handle]. by rewrite handleLocationSelection_unfold.
  - destruct (mounted a) eqn:Hm; [|assumption]. apply commit_timers; try assumption.
    cbn [handle]. by rewrite handleLocationSelection_unfold.
  - destruct (mounted a) eqn:Hm; [|assumption]. by apply commit_timers.
  - destruct (mounted a) eqn:Hm; [|assumption]. by apply commit_timers.
  - unfold settle. destruct (pending a !! rid) as [r|]; [|assumption].
    destruct r, response; try assumption.
    + apply (timers_same a); [|assumption].
      destruct (mounted a); [|reflexivity]. unfold handleSearch_settled.
      destruct outcome as [results|error]; [destruct (_ =? _)|]; reflexivity.
    + apply (timers_same a); [|assumption]. unfold fetchWeather_settled.
      by destruct outcome, (negb (cycle_isActive _ _)), isAutoRefresh.
  - by apply elapse_timers.
  - destruct (mounted a); [|assumption]. by apply unmount_timers.
Qed.

Lemma run_timers (es : list Event) (a : App) : timers_wf a -> timers_wf (run es a).
Proof.
  revert a. induction es as [|e es IH]; intros a Ha; [assumption|].
  cbn [run foldl]. by apply IH, step_timers.
Qed.

(** X10.  No timer outlives its cycle.  On every page reached from its
    first render, each repeating timer that is alive is either the reload
    timer or the auto-refresh timer of the current cycle: the cleanup of a
    superseded cycle has cleared its timer.  Once the component is
    unmounted no timer is alive at all. *)
Theorem no_timer_outlives_its_cycle (p : Platform) (ls : Storage) (t : N)
  (log : list Request) (es : list Event) :
  let a := run es (boot p ls t log) in
  (forall iv, iv ∈ intervals a ->
     (iv_callback iv = reloadPage /\ iv_period iv = 60000%N)
     \/ (iv_callback iv = autoRefresh (current a) /\ iv_period iv = 1000%N))
  /\ (mounted a = false -> intervals a = []).
Proof.
  cbn zeta. destruct (run_timers es _ (boot_timers p ls t log)) as (_ & Hall & Hoff).
  split; [|assumption]. intros iv Hin.
  destruct (Hall iv Hin) as [(Hcallback & Hperiod & _) | (Hcallback & Hperiod & _)].
  - by left.
  - by right.
Qed.

Lemma step_unmounted (e : Event) (a : App) :
  cycles_wf a -> timers_wf a -> mounted a = false ->
  react (step e a) = react a
  /\ issued (step e a) = issued a
  /\ mounted (step e a) = false.
Proof.
  intros (Hactive & _ & _) (_ & _ & Hoff) Hm.
  destruct e; cbn [step]; rewrite ?Hm; try by repeat split.
  - unfold settle. destruct (pending a !! rid) as [r|]; [|by repeat split].
    destruct r, response; try by repeat split.
    + rewrite Hm. by repeat split.
    + unfold fetchWeather_settled. rewrite cycle_isActive_put_pending.
      assert (Hflag : cycle_isActive cycle a = false).
      { unfold cycle_isActive. destruct (cycles a !! cycle) as [cy|] eqn:Hcy; [|reflexivity].
        destruct (isActive cy) eqn:Hflag; [|reflexivity].
        destruct (Hactive _ _ Hcy Hflag). congruence. }
      rewrite Hflag. by destruct outcome.
  - change (Nat.iter dt tick a) with (step (Elapsed dt) a).
    rewrite elapse_quiet; [by repeat split|].
    intros cur Hcur. rewrite (Hoff Hm) in Hcur. by apply elem_of_nil in Hcur.
Qed.

(** X11.  An unmounted component is inert.  On every page reached from
    its first render, once the component is unmounted no later event
    (a callback, a request that settles, time passing) changes any state
    cell, issues a network call or writes to storage, and no timer is
    alive. *)
Theorem unmounted_page_is_inert (p : Platform) (ls : Storage) (t : N)
  (log : list Request) (es es' : list Event) :
  let a := run es (boot p ls t log) in
  mounted a = false ->
  react (run es' a) = react a
  /\ issued (run es' a) = issued a
  /\ localStorage (run es' a) = localStorage a
  /\ intervals (run es' a) = []
  /\ mounted (run es' a) = false.
Proof.
  cbn zeta.
  pose proof (run_wf es _ (boot_wf p ls t log)) as Hwf.
  pose proof (run_timers es _ (boot_timers p ls t log)) as Htimers.
  generalize dependent (run es (boot p ls t log)). intros a. revert a.
  induction es' as [|e es' IH]; intros a Hwf Htimers Hm.
  - cbn. destruct Htimers as (_ & _ & Hoff). by rewrite (Hoff Hm).
  - change (run (e :: es') a) with (run es' (step e a)).
    destruct (step_unmounted e a Hwf Htimers Hm) as (Hreact & Hlog & Hm').
    destruct (IH (step e a) (step_wf e a Hwf) (step_timers e a Htimers) Hm')
      as (-> & -> & -> & -> & ->).
    rewrite Hreact, Hlog, step_storage, Hm. by destruct e.
Qed.

(** The fresh page, unmounted while its first request is in flight; the
    answer arrives later. *)
Lemma unmounted_page_is_inert_witness :
  react (run [Settled 0 (forecast (Fulfilled (sample_data ["2024-05-01"]))); Elapsed 5]
           (run [Unmounted] fresh_page))
  = react (run [Unmounted] fresh_page).
Proof.
  change fresh_page with (boot sample_platform empty_storage 0 []).
  assert (Hm : mounted (run [Unmounted] (boot sample_platform empty_storage 0 [])) = false)
    by (vm_compute; reflexivity).
  destruct (unmounted_page_is_inert sample_platform empty_storage 0 [] [Unmounted]
              [Settled 0 (forecast (Fulfilled (sample_data ["2024-05-01"]))); Elapsed 5] Hm)
    as (Hreact & _).
  exact Hreact.
Defined.

(** ** Requests and the cycle that made them *)

Lemma requests_same (a a' : App) :
  requestView a' = requestView a -> requests_wf a -> requests_wf a'.
Proof.
  unfold requestView, requests_wf, cycle_isActive, current.
  intros [= -> -> -> -> ->]. tauto.
Qed.

Lemma captures_alter (f : Cycle -> Cycle) (l : list Cycle) (i c : nat)
  (loc : Ref LocationMatch.t) (u : MeasurementSystem) :
  (forall cy, cy_location (f cy) = cy_location cy /\ cy_units (f cy) = cy_units cy) ->
  captures l c loc u -> captures (alter f i l) c loc u.
Proof.
  intros Hf (cy & Hcy & Hloc & Hu). destruct (decide (i = c)) as [->|Hne].
  - exists (f cy). rewrite list_lookup_alter_eq, Hcy. destruct (Hf cy) as [-> ->].
    by repeat split.
  - exists cy. by rewrite list_lookup_alter_ne.
Qed.

Lemma captures_app (l : list Cycle) (new : Cycle) (c : nat)
  (loc : Ref LocationMatch.t) (u : MeasurementSystem) :
  captures l c loc u -> captures (l ++ [new]) c loc u.
Proof. intros (cy & Hcy & Hfields). exists cy. split; [by apply lookup_app_l_Some | done]. Qed.

Lemma weatherEffect_pending (a : App) :
  pending (weatherEffect a)
  = <[nextRequestId a :=
        fetchWeatherForecast (length (cycles a)) false (selectedLocation a) (units a)]>
      (pending a).
Proof. by rewrite weatherEffect_unfold. Qed.

Lemma weatherEffect_requests (a : App) :
  (forall rid c isAutoRefresh loc u,
     pending a !! rid = Some (fetchWeatherForecast c isAutoRefresh loc u) ->
     captures (cycles a) c loc u) ->
  requests_wf (weatherEffect a).
Proof.
  intros Hpending.
  destruct (identityView_eq _ _ (weatherEffect_identity a)) as (_ & Hloc & Hunits & _).
  assert (Hnew : captures (cycles (weatherEffect a)) (length (cycles a))
                   (selectedLocation a) (units a)).
  { eexists. rewrite weatherEffect_cycles, list_lookup_alter_eq, new_cycle_lookup.
    by repeat split. }
  split; [|split].
  - by rewrite weatherEffect_current, Hloc, Hunits.
  - intros _. rewrite weatherEffect_current. unfold cycle_isActive.
    by rewrite weatherEffect_cycles, list_lookup_alter_eq, new_cycle_lookup.
  - intros rid c isAutoRefresh loc u. rewrite weatherEffect_pending.
    intros [[_ [= <- <- <- <-]] | [_ Hold]]%lookup_insert_Some; [assumption|].
    rewrite weatherEffect_cycles. apply captures_alter; [by intros []|].
    apply captures_app. by apply (Hpending rid c isAutoRefresh).
Qed.

Lemma weatherCleanup_requests (c0 : nat) (a : App) :
  (forall rid c isAutoRefresh loc u,
     pending a !! rid = Some (fetchWeatherForecast c isAutoRefresh loc u) ->
     captures (cycles a) c loc u) ->
  forall rid c isAutoRefresh loc u,
    pending (weatherCleanup c0 a) !! rid = Some (fetchWeatherForecast c isAutoRefresh loc u) ->
    captures (cycles (weatherCleanup c0 a)) c loc u.
Proof.
  intros Hpending rid c isAutoRefresh loc u.
  destruct (weatherCleanup_rest c0 a) as (_ & -> & _). rewrite weatherCleanup_cycles.
  intros Hrid. apply captures_alter; [by intros []|].
  by apply (Hpending rid c isAutoRefresh).
Qed.

Lemma restart_requests (c0 : nat) (a : App) :
  (forall rid c isAutoRefresh loc u,
     pending a !! rid = Some (fetchWeatherForecast c isAutoRefresh loc u) ->
     captures (cycles a) c loc u) ->
  requests_wf (weatherEffect (weatherCleanup c0 a)).
Proof. intros Hpending. by apply weatherEffect_requests, weatherCleanup_requests. Qed.

Lemma reloadEffect_requestView (a : App) : requestView (reloadEffect a) = requestView a.
Proof. reflexivity. Qed.

Lemma boot_requests (p : Platform) (ls : Storage) (t : N) (log : list Request) :
  requests_wf (boot p ls t log).
Proof.
  unfold boot.
  apply (requests_same (weatherEffect (firstRender p ls t log)));
    [apply reloadEffect_requestView|].
  apply weatherEffect_requests. intros rid c isAutoRefresh loc u Hrid.
  unfold firstRender in Hrid. cbn in Hrid. by rewrite lookup_empty in Hrid.
Qed.

Lemma autoRefreshTick_requests (c : nat) (a : App) :
  requests_wf a -> requests_wf (autoRefreshTick c a).
Proof.
  intros Ha. unfold autoRefreshTick. destruct (cycles a !! c) as [cy|] eqn:Hc; [|assumption].
  destruct (isActive cy && _); [|assumption].
  rewrite (fetchWeather_known _ _ _ _ Hc). destruct Ha as (Hcur & Hactive & Hpending).
  split; [assumption|]. split; [assumption|].
  intros rid c' isAutoRefresh loc u. unfold_app.
  intros [[_ [= <- <- <- <-]] | [_ Hold]]%lookup_insert_Some.
  - by exists cy.
  - by apply (Hpending rid c' isAutoRefresh).
Qed.

Lemma dropped_requests (rid : nat) (a a' : App) :
  cycles a' = cycles a -> pending a' = delete rid (pending a) ->
  selectedLocation a' = selectedLocation a -> units a' = units a ->
  mounted a' = mounted a ->
  requests_wf a -> requests_wf a'.
Proof.
  intros Hcycles Hpending Hloc Hunits Hm (Hcur & Hactive & Hall).
  unfold requests_wf, cycle_isActive, current. rewrite Hcycles, Hloc, Hunits, Hm, Hpending.
  split; [assumption|]. split; [assumption|].
  intros rid' c isAutoRefresh loc u [_ Hold]%lookup_delete_Some.
  by apply (Hall rid' c isAutoRefresh).
Qed.

Lemma fire_requests (iv : Interval) (a : App) : requests_wf a -> requests_wf (fire iv a).
Proof.
  intros Ha. unfold fire.
  destruct (list_find _ _) as [[i cur]|]; [|assumption].
  destruct (_ =? _)%N; [|assumption].
  destruct (iv_callback cur).
  - apply autoRefreshTick_requests. by apply (requests_same a).
  - unfold reload. apply boot_requests.
Qed.

Lemma tick_requests (a : App) : requests_wf a -> requests_wf (tick a).
Proof.
  intros Ha. unfold tick.
  assert (Hstart : requests_wf (put_now (N.succ (now a)) a))
    by (apply (requests_same a); [reflexivity | assumption]).
  revert Hstart. generalize (intervals (put_now (N.succ (now a)) a)).
  generalize (put_now (N.succ (now a)) a).
  intros acc l. revert acc.
  induction l as [|iv l IH]; intros acc Hacc; [assumption|].
  cbn [foldl]. by apply IH, fire_requests.
Qed.

Lemma elapse_requests (dt : nat) (a : App) :
  requests_wf a -> requests_wf (Nat.iter dt tick a).
Proof.
  intros Ha. induction dt as [|dt IH]; [assumption|].
  cbn [Nat.iter]. by apply tick_requests.
Qed.

Lemma step_requests (e : Event) (a : App) :
  cycles_wf a -> requests_wf a -> requests_wf (step e a).
Proof.
  intros (_ & Haddr & _) Ha. pose proof Ha as (_ & _ & Hall). destruct e; cbn [step].
  - destruct (mounted a); [|assumption]. rewrite commit_same_deps by reflexivity.
    by apply (requests_same a).
  - destruct (mounted a); [|assumption]. rewrite commit_same_deps;
      cbn [handle]; unfold handleSearch; destruct (negb _); try reflexivity.
    + by apply (requests_same a).
    + destruct Ha as (Hcur & Hactive & _). split; [assumption|]. split; [assumption|].
      intros rid c isAutoRefresh loc u. unfold_app.
      intros [[_ [=]] | [_ Hold]]%lookup_insert_Some.
      by apply (Hall rid c isAutoRefresh).
  - destruct (mounted a); [|assumption]. cbn [handle].
    rewrite handleLocationSelection_unfold. unfold commit, depsChanged. unfold_app.
    replace (addr (selectedLocation a) =? nextAddr a) with false
      by (symmetry; apply Nat.eqb_neq; lia).
    cbn [negb orb]. by apply restart_requests.
  - destruct (mounted a); [|assumption]. cbn [handle].
    rewrite handleLocationSelection_unfold. unfold commit, depsChanged. unfold_app.
    replace (addr (selectedLocation a) =? nextAddr a) with false
      by (symmetry; apply Nat.eqb_neq; lia).
    cbn [negb orb]. by apply restart_requests.
  - destruct (mounted a); [|assumption]. cbn [handle].
    destruct (decide (system = units a)) as [->|Hsystem].
    + rewrite setUnits_same. by rewrite commit_same_deps.
    + unfold commit, depsChanged. unfold_app.
      rewrite (bool_decide_eq_false_2 (units a = system)) by congruence.
      rewrite orb_true_r. by apply restart_requests.
  - destruct (mounted a); [|assumption]. rewrite commit_same_deps by reflexivity.
    by apply (requests_same a).
  - unfold settle. destruct (pending a !! rid) as [r|]; [|assumption].
    destruct r, response; try assumption.
    + destruct (mounted a) eqn:Hm.
      * apply (dropped_requests rid a); try assumption; unfold handleSearch_settled;
          destruct outcome as [results|error]; try destruct (_ =? _); reflexivity.
      * apply (dropped_requests rid a); try assumption; reflexivity.
    + apply (dropped_requests rid a); try assumption; unfold fetchWeather_settled;
        by destruct outcome, (negb (cycle_isActive _ _)), isAutoRefresh.
  - by apply elapse_requests.
  - destruct (mounted a) eqn:Hm; [|assumption].
    destruct Ha as ((cy & Hcy & Hloc & Hu) & _ & _).
    assert (Hcycles : cycles (unmount a) = alter (set_isActive false) (current a) (cycles a)).
    { unfold unmount, reloadCleanup. rewrite <- weatherCleanup_cycles.
      by destruct (reloadInterval _). }
    assert (Hrest : react (unmount a) = react a /\ pending (unmount a) = pending a).
    { destruct (weatherCleanup_rest (current a) a) as (Hr & Hp & _).
      rewrite <- Hr, <- Hp. unfold unmount, reloadCleanup. by destruct (reloadInterval _). }
    destruct Hrest as [Hreact Hpending].
    assert (Hcurrent : current (unmount a) = current a)
      by (unfold current; by rewrite Hcycles, length_alter).
    split; [|split].
    + rewrite Hcurrent, Hcycles, Hreact. apply captures_alter; [by intros []|]. by exists cy.
    + assert (Hoff : mounted (unmount a) = false) by reflexivity.
      rewrite Hoff. discriminate.
    + intros rid c isAutoRefresh loc u. rewrite Hpending, Hcycles. intros Hrid.
      apply captures_alter; [by intros []|]. by apply (Hall rid c isAutoRefresh).
Qed.

Lemma run_requests (es : list Event) (a : App) :
  cycles_wf a -> requests_wf a -> requests_wf (run es a).
Proof.
  revert a. induction es as [|e es IH]; intros a Hwf Ha; [assumption|].
  cbn [run foldl]. apply IH; [by apply step_wf | by apply step_requests].
Qed.

(** X12.  A forecast response is applied only to the selection it was
    requested for.  On every page reached from its first render, a
    pending forecast request whose cycle is still active belongs to the
    current cycle of a mounted component, and it asked for the location
    object and the unit system that are selected now. *)
Theorem applied_response_is_current (p : Platform) (ls : Storage) (t : N)
  (log : list Request) (es : list Event) :
  let a := run es (boot p ls t log) in
  forall rid c isAutoRefresh loc u,
    pending a !! rid = Some (fetchWeatherForecast c isAutoRefresh loc u) ->
    cycle_isActive c a = true ->
    c = current a /\ mounted a = true /\ loc = selectedLocation a /\ u = units a.
Proof.
  cbn zeta. pose proof (run_wf es _ (boot_wf p ls t log)) as Hwf.
  pose proof (run_requests es _ (boot_wf p ls t log) (boot_requests p ls t log)) as Hreq.
  set (a := run es (boot p ls t log)) in *.
  intros rid c isAutoRefresh loc u Hrid Hflag.
  destruct Hwf as (Hactive & _ & _). destruct Hreq as (Hcur & _ & Hall).
  unfold cycle_isActive in Hflag. destruct (cycles a !! c) as [cy|] eqn:Hcy; [|discriminate].
  destruct (Hactive c cy Hcy Hflag) as [Hm ->].
  destruct (Hall rid _ _ _ _ Hrid) as (cy1 & Hcy1 & <- & <-).
  destruct Hcur as (cy2 & Hcy2 & <- & <-).
  assert (cy1 = cy2) as -> by congruence. by repeat split.
Qed.

Lemma applied_response_is_current_witness :
  selectedLocation (run [ResultSelected paris] fresh_page) = mkRef 1 paris.
Proof.
  change fresh_page with (boot sample_platform empty_storage 0 []).
  assert (Hrid : pending (run [ResultSelected paris] (boot sample_platform empty_storage 0 []))
                   !! 1 = Some (fetchWeatherForecast 1 false (mkRef 1 paris) metric))
    by (vm_compute; reflexivity).
  assert (Hflag : cycle_isActive 1
                    (run [ResultSelected paris] (boot sample_platform empty_storage 0 []))
                  = true) by (vm_compute; reflexivity).
  destruct (applied_response_is_current sample_platform empty_storage 0 []
              [ResultSelected paris] 1 1 false (mkRef 1 paris) metric Hrid Hflag)
    as (_ & _ & Hloc & _).
  symmetry. exact Hloc.
Defined.

(** X13.  A response for the current cycle is never dropped.  On every
    page reached from its first render, while the component is mounted a
    pending forecast request of the current cycle, once fulfilled, makes
    the forecast ready with its payload; the selected day is the first
    day for an initial request and the sticky choice for an auto-refresh
    request.  A rejected initial request gives the error state. *)
Theorem current_response_applies (p : Platform) (ls : Storage) (t : N)
  (log : list Request) (es : list Event) :
  let a := run es (boot p ls t log) in
  mounted a = true ->
  forall rid isAutoRefresh loc u,
    pending a !! rid = Some (fetchWeatherForecast (current a) isAutoRefresh loc u) ->
    (forall data,
       let a' := step (Settled rid (forecast (Fulfilled data))) a in
       weatherStatus a' = weather_ready
       /\ weatherData a' = Some data
       /\ selectedDay a'
          = if isAutoRefresh then keepDay data (selectedDay a) else firstDay data)
    /\ (forall error,
          isAutoRefresh = false ->
          weatherStatus (step (Settled rid (forecast (Rejected error))) a) = weather_error).
Proof.
  cbn zeta.
  pose proof (run_requests es _ (boot_wf p ls t log) (boot_requests p ls t log)) as Hreq.
  set (a := run es (boot p ls t log)) in *.
  intros Hm rid isAutoRefresh loc u Hrid. destruct Hreq as (_ & Hactive & _).
  specialize (Hactive Hm). split.
  - intros data. rewrite (settle_forecast _ _ _ _ _ _ _ Hrid).
    unfold fetchWeather_settled. rewrite cycle_isActive_put_pending, Hactive.
    cbn [negb]. by destruct isAutoRefresh.
  - intros error ->. rewrite (settle_forecast _ _ _ _ _ _ _ Hrid).
    unfold fetchWeather_settled. by rewrite cycle_isActive_put_pending, Hactive.
Qed.

Lemma current_response_applies_witness :
  weatherStatus
    (step (Settled 1 (forecast (Fulfilled (sample_data ["2024-05-01"]))))
       (run [ResultSelected paris] fresh_page)) = weather_ready.
Proof.
  change fresh_page with (boot sample_platform empty_storage 0 []).
  assert (Hm : mounted (run [ResultSelected paris] (boot sample_platform empty_storage 0 []))
               = true) by (vm_compute; reflexivity).
  assert (Hrid :
    pending (run [ResultSelected paris] (boot sample_platform empty_storage 0 [])) !! 1
    = Some (fetchWeatherForecast
              (current (run [ResultSelected paris] (boot sample_platform empty_storage 0 [])))
              false (mkRef 1 paris) metric)) by (vm_compute; reflexivity).
  destruct (current_response_applies sample_platform empty_storage 0 []
              [ResultSelected paris] Hm 1 false (mkRef 1 paris) metric Hrid) as [Hok _].
  destruct (Hok (sample_data ["2024-05-01"])) as (Hready & _).
  exact Hready.
Defined.

(** X14.  Within one cycle the response that arrives last wins.  When the
    initial request is still in flight while an auto-refresh request of
    the same active cycle is fulfilled, and the user then picks a day, the
    late answer to the initial request replaces the newer data and puts
    the selected day back to the first day of its own dayOrder. *)
Theorem late_initial_response_wins (a : App) (rid0 rid1 c : nat)
  (loc0 loc1 : Ref LocationMatch.t) (u0 u1 : MeasurementSystem)
  (data0 data1 : WeatherData.t) (day : string) :
  pending a !! rid0 = Some (fetchWeatherForecast c false loc0 u0) ->
  pending a !! rid1 = Some (fetchWeatherForecast c true loc1 u1) ->
  cycle_isActive c a = true ->
  mounted a = true ->
  let refreshed := step (Settled rid1 (forecast (Fulfilled data1))) a in
  let picked := step (DaySelected day) refreshed in
  let late := step (Settled rid0 (forecast (Fulfilled data0))) picked in
  weatherData refreshed = Some data1
  /\ selectedDay picked = Some day
  /\ weatherData picked = Some data1
  /\ weatherStatus late = weather_ready
  /\ weatherData late = Some data0
  /\ selectedDay late = head (WeatherData.dayOrder data0).
Proof.
  intros Hrid0 Hrid1 Hactive Hm. cbn zeta.
  assert (Hne : rid1 <> rid0) by (intros ->; congruence).
  rewrite (settle_forecast _ _ _ _ _ _ _ Hrid1).
  unfold fetchWeather_settled at 1 2 3 4 5 6.
  rewrite cycle_isActive_put_pending, Hactive. cbn [negb].
  set (refreshed := setWeatherStatus _ _).
  assert (Hm' : mounted refreshed = true) by exact Hm.
  cbn [step handle]. rewrite Hm', commit_same_deps by reflexivity.
  set (picked := setSelectedDay _ _).
  assert (Hpending : pending picked !! rid0 = Some (fetchWeatherForecast c false loc0 u0)).
  { unfold picked, refreshed. unfold_app. by rewrite lookup_delete_ne. }
  assert (Hflag : cycle_isActive c picked = true) by exact Hactive.
  unfold settle. rewrite Hpending. unfold fetchWeather_settled.
  rewrite cycle_isActive_put_pending, Hflag. cbn [negb].
  by repeat split.
Qed.

(** The fresh page a second after its first render: both requests are in
    flight. *)
Lemma late_initial_response_wins_witness :
  selectedDay
    (run [Settled 1 (forecast (Fulfilled (sample_data ["2024-05-02"; "2024-05-03"])));
          DaySelected "2024-05-03";
          Settled 0 (forecast (Fulfilled (sample_data ["2024-05-01"; "2024-05-02"])))]
       (step (Elapsed 1000) fresh_page)) = Some "2024-05-01".
Proof.
  assert (Hrid0 : pending (step (Elapsed 1000) fresh_page) !! 0
                  = Some (fetchWeatherForecast 0 false (mkRef 0 DEFAULT_LOCATION) metric))
    by (vm_compute; reflexivity).
  assert (Hrid1 : pending (step (Elapsed 1000) fresh_page) !! 1
                  = Some (fetchWeatherForecast 0 true (mkRef 0 DEFAULT_LOCATION) metric))
    by (vm_compute; reflexivity).
  assert (Hflag : cycle_isActive 0 (step (Elapsed 1000) fresh_page) = true)
    by (vm_compute; reflexivity).
  assert (Hm : mounted (step (Elapsed 1000) fresh_page) = true) by (vm_compute; reflexivity).
  destruct (late_initial_response_wins _ 0 1 0 _ _ _ _
              (sample_data ["2024-05-01"; "2024-05-02"])
              (sample_data ["2024-05-02"; "2024-05-03"]) "2024-05-03"
              Hrid0 Hrid1 Hflag Hm) as (_ & _ & _ & _ & _ & Hday).
  exact Hday.
Defined.

(** ** The hourly panel *)

Lemma hourlyForecast_Some (a : App) (props : HourlyForecast.Props) :
  hourlyForecast a = Some props <->
  weatherStatus a = weather_ready /\ searchStatus a <> search_no_results
  /\ exists data, weatherData a = Some data
       /\ props = HourlyForecast.mk (WeatherData.dayOrder data) (selectedDay a)
                    (WeatherData.hourlyByDay data).
Proof.
  unfold hourlyForecast. split.
  - destruct (weatherStatus a), (weatherData a) as [data|], (searchStatus a);
      try discriminate; intros [= <-]; (split; [reflexivity|]); (split; [discriminate|]);
      by exists data.
  - intros (-> & Hsearch & data & -> & ->). by destruct (searchStatus a).
Qed.

Lemma options_lookup (props : HourlyForecast.Props) (day : string) (mark : bool) :
  (day, mark) ∈ options props <->
  day ∈ HourlyForecast.dayOrder props
  /\ mark = bool_decide (HourlyForecast.selectedDay props = Some day).
Proof.
  unfold options. rewrite list_elem_of_fmap. split.
  - intros (d & [= -> ->] & Hin). by split.
  - intros (Hin & ->). by exists day.
Qed.

(** X15.  The hourly panel always shows the selection.  On every page
    reached from its first render by events the page offers, whenever the
    panel is rendered: each option of its dropdown is a day that can be
    picked; if a day is selected, the dropdown has that day among its
    options, with the mark; if none is, the dropdown has no option at all
    and the body of the panel reads that no hourly data is available. *)
Theorem hourly_panel_shows_selection (p : Platform) (ls : Storage) (t : N)
  (log : list Request) (es : list Event) (props : HourlyForecast.Props) :
  offered_all (boot p ls t log) es ->
  hourlyForecast (run es (boot p ls t log)) = Some props ->
  (forall day mark, (day, mark) ∈ options props ->
     offered (run es (boot p ls t log)) (DaySelected day))
  /\ match HourlyForecast.selectedDay props with
     | Some day => (day, true) ∈ options props
     | None => options props = [] /\ content props = NoHourlyData
     end.
Proof.
  intros Hes (Hready & Hsearch & data & Hdata & ->)%hourlyForecast_Some.
  pose proof (run_valid es _ (boot_valid p ls t log) Hes) as Hvalid.
  destruct (Hvalid Hready) as (data' & Hdata' & Hday).
  assert (data' = data) as -> by congruence.
  split.
  - intros day mark [Hin _]%options_lookup.
    cbn [offered]. split; [assumption|]. split; [assumption|]. by exists data.
  - cbn [HourlyForecast.selectedDay].
    destruct (selectedDay (run es (boot p ls t log))) as [day|] eqn:Hsel.
    + apply options_lookup. cbn [HourlyForecast.dayOrder HourlyForecast.selectedDay].
      split; [assumption|]. by rewrite bool_decide_eq_true_2.
    + unfold options, content, hours.
      cbn [HourlyForecast.dayOrder HourlyForecast.selectedDay]. by rewrite Hday.
Qed.

Lemma hourly_panel_shows_selection_witness :
  (forall day mark,
     (day, mark) ∈ options (HourlyForecast.mk ["2024-05-01"; "2024-05-02"]
                              (Some "2024-05-02") ∅) ->
     offered (run [Settled 0 (forecast (Fulfilled (sample_data ["2024-05-01"; "2024-05-02"])));
                   DaySelected "2024-05-02"] (boot sample_platform empty_storage 0 []))
       (DaySelected day))
  /\ ("2024-05-02", true) ∈ options (HourlyForecast.mk ["2024-05-01"; "2024-05-02"]
                                       (Some "2024-05-02") ∅).
Proof.
  apply (hourly_panel_shows_selection sample_platform empty_storage 0 []
           [Settled 0 (forecast (Fulfilled (sample_data ["2024-05-01"; "2024-05-02"])));
            DaySelected "2024-05-02"]
           (HourlyForecast.mk ["2024-05-01"; "2024-05-02"] (Some "2024-05-02") ∅)).
  - cbn [offered_all offered]. split; [exact I|]. split; [|exact I].
    assert (Hstatus : weatherStatus (step (Settled 0 (forecast (Fulfilled
                      (sample_data ["2024-05-01"; "2024-05-02"]))))
                      (boot sample_platform empty_storage 0 [])) = weather_ready)
      by (vm_compute; reflexivity).
    assert (Hdata : weatherData (step (Settled 0 (forecast (Fulfilled
                      (sample_data ["2024-05-01"; "2024-05-02"]))))
                      (boot sample_platform empty_storage 0 []))
                    = Some (sample_data ["2024-05-01"; "2024-05-02"]))
      by (vm_compute; reflexivity).
    assert (Hsearch : searchStatus (step (Settled 0 (forecast (Fulfilled
                      (sample_data ["2024-05-01"; "2024-05-02"]))))
                      (boot sample_platform empty_storage 0 [])) = search_idle)
      by (vm_compute; reflexivity).
    split; [assumption|]. split; [by rewrite Hsearch|].
    exists (sample_data ["2024-05-01"; "2024-05-02"]). split; [assumption|].
    cbn. in_list.
  - vm_compute. reflexivity.
Defined.

(** X16.  Picking a day from the dropdown.  The click hands the day to
    [setSelectedDay] and closes the dropdown.  On a mounted page that
    shows the panel, the next render shows the panel over the same
    forecast with that day selected: the hours are the ones the payload
    has under that day (none if it has no entry, or if the day is the
    empty text), and the mark is on the options equal to that day and on
    no other.  Nothing is fetched, no cycle is restarted, no timer is set
    or cleared, and nothing is written to storage. *)
Theorem day_picked_from_dropdown (a : App) (props : HourlyForecast.Props)
  (day : string) (open : bool) :
  mounted a = true ->
  hourlyForecast a = Some props ->
  let a' := step (DaySelected (fst (optionClick day open))) a in
  snd (optionClick day open) = false
  /\ (exists props',
        hourlyForecast a' = Some props'
        /\ HourlyForecast.dayOrder props' = HourlyForecast.dayOrder props
        /\ HourlyForecast.hourlyByDay props' = HourlyForecast.hourlyByDay props
        /\ HourlyForecast.selectedDay props' = Some day
        /\ hours props'
           = (if truthy day then default [] (HourlyForecast.hourlyByDay props !! day) else [])
        /\ (forall d mark, (d, mark) ∈ options props' -> mark = bool_decide (d = day)))
  /\ issued a' = issued a
  /\ pending a' = pending a
  /\ cycles a' = cycles a
  /\ intervals a' = intervals a
  /\ localStorage a' = localStorage a.
Proof.
  intros Hm (Hready & Hsearch & data & Hdata & ->)%hourlyForecast_Some.
  cbn zeta. cbn [optionClick fst snd step handle]. rewrite Hm.
  rewrite commit_same_deps by reflexivity.
  split; [reflexivity|]. split; [|by repeat split].
  eexists. split.
  - apply hourlyForecast_Some. split; [exact Hready|]. split; [exact Hsearch|].
    exists data. split; [exact Hdata | reflexivity].
  - cbn [HourlyForecast.dayOrder HourlyForecast.hourlyByDay HourlyForecast.selectedDay].
    split; [reflexivity|]. split; [reflexivity|]. split; [reflexivity|].
    split; [reflexivity|].
    intros d mark [_ ->]%options_lookup.
    cbn [HourlyForecast.selectedDay]. apply bool_decide_ext.
    split; [by intros [= ->] | by intros ->].
Qed.

Lemma day_picked_from_dropdown_witness :
  let a := step (Settled 0 (forecast (Fulfilled (sample_data ["2024-05-01"; "2024-05-02"]))))
             fresh_page in
  mounted a = true
  /\ hourlyForecast a
     = Some (HourlyForecast.mk ["2024-05-01"; "2024-05-02"] (Some "2024-05-01") ∅)
  /\ issued (step (DaySelected "2024-05-02") a) = issued a.
Proof.
  cbn zeta.
  assert (Hm : mounted (step (Settled 0 (forecast (Fulfilled
                 (sample_data ["2024-05-01"; "2024-05-02"])))) fresh_page) = true)
    by (vm_compute; reflexivity).
  assert (Hprops : hourlyForecast (step (Settled 0 (forecast (Fulfilled
                     (sample_data ["2024-05-01"; "2024-05-02"])))) fresh_page)
                   = Some (HourlyForecast.mk ["2024-05-01"; "2024-05-02"]
                             (Some "2024-05-01") ∅))
    by (vm_compute; reflexivity).
  split; [exact Hm|]. split; [exact Hprops|].
  destruct (day_picked_from_dropdown _ _ "2024-05-02" true Hm Hprops)
    as (_ & _ & Hissued & _).
  exact Hissued.
Defined.

(** ** The page reload *)

Lemma armed_same (a a' : App) (rid : nat) (d : N) :
  timerView a' = timerView a -> armed_at a rid d -> armed_at a' rid d.
Proof.
  unfold timerView, armed_at, current. intros [= -> -> -> -> _]. tauto.
Qed.

Lemma reload_armed_same (a a' : App) :
  timerView a' = timerView a -> now a' = now a -> reload_armed a -> reload_armed a'.
Proof.
  intros Hview Hnow Ha Hm.
  assert (Hm' : mounted a = true) by (unfold timerView in Hview; congruence).
  destruct (Ha Hm') as (rid & d & Harmed & Hd).
  exists rid, d. split; [by apply (armed_same a)|]. by rewrite Hnow.
Qed.

Lemma boot_now (p : Platform) (ls : Storage) (t : N) (log : list Request) :
  now (boot p ls t log) = t.
Proof. by rewrite boot_unfold. Qed.

Lemma boot_armed_at (p : Platform) (ls : Storage) (t : N) (log : list Request) :
  armed_at (boot p ls t log) 2 (t + 60000).
Proof.
  rewrite boot_unfold. cbn zeta. unfold armed_at, current. cbn.
  split; [reflexivity|]. split; [lia|]. split; [in_list|]. split; [|discriminate].
  intros iv [-> | [-> | Hin%elem_of_nil]%elem_of_cons]%elem_of_cons Hid; [| |done].
  - discriminate.
  - reflexivity.
Qed.

Lemma boot_armed (p : Platform) (ls : Storage) (t : N) (log : list Request) :
  reload_armed (boot p ls t log).
Proof.
  intros _. exists 2, (t + 60000)%N. split; [apply boot_armed_at|].
  rewrite boot_now. lia.
Qed.

Lemma weatherCleanup_now (c : nat) (a : App) : now (weatherCleanup c a) = now a.
Proof.
  unfold weatherCleanup.
  destruct (cycles a !! c ≫= intervalId) as [iid|]; [|reflexivity].
  by destruct (negb _).
Qed.

Lemma weatherEffect_now (a : App) : now (weatherEffect a) = now a.
Proof. by rewrite weatherEffect_unfold. Qed.

Lemma autoRefreshTick_now (c : nat) (a : App) : now (autoRefreshTick c a) = now a.
Proof.
  unfold autoRefreshTick. destruct (cycles a !! c) as [cy|] eqn:Hc; [|reflexivity].
  destruct (isActive cy && _); [|reflexivity].
  by rewrite (fetchWeather_known _ _ _ _ Hc).
Qed.

Lemma commit_armed (before after : App) :
  timerView after = timerView before -> now after = now before ->
  reload_armed before -> reload_armed (commit before after).
Proof.
  intros Hview Hnow Hbefore.
  pose proof (reload_armed_same _ _ Hview Hnow Hbefore) as Hafter.
  unfold commit. destruct (depsChanged _ _); [|assumption].
  assert (Hcur : current before = current after)
    by (unfold timerView in Hview; unfold current; congruence).
  rewrite Hcur. intros Hm.
  destruct (identityView_eq _ _ (weatherEffect_identity
              (weatherCleanup (current after) after))) as (Hm1 & _).
  destruct (identityView_eq _ _ (weatherCleanup_identity (current after) after))
    as (Hm2 & _).
  assert (Hmounted : mounted after = true) by congruence.
  destruct (Hafter Hmounted) as (rid & d & (Hrid & Hlt & Hin & Huniq & Hother) & Hd).
  destruct (weatherCleanup_intervals (current after) after) as (Hint & Hreload & Hnext).
  destruct (weatherEffect_timers (weatherCleanup (current after) after))
    as (Hint' & Hreload' & Hnext').
  assert (Hkept : forall iv, iv ∈ intervals (weatherCleanup (current after) after) ->
                    iv ∈ intervals after).
  { intros iv. rewrite Hint.
    destruct (cycles after !! current after ≫= intervalId) as [iid|]; [|done].
    destruct (negb _); [|done]. by intros [_ ?]%list_elem_of_filter. }
  assert (Hstill : mkInterval rid reloadPage 60000 d
                   ∈ intervals (weatherCleanup (current after) after)).
  { rewrite Hint.
    destruct (cycles after !! current after ≫= intervalId) as [iid|] eqn:Hiid; [|done].
    destruct (negb _); [|done]. apply list_elem_of_filter. split; [|assumption].
    cbn [iv_id]. congruence. }
  exists rid, d. split.
  - split; [congruence|]. split; [lia|].
    split; [rewrite Hint'; apply elem_of_app; by left|]. split.
    + intros iv. rewrite Hint'. intros [Hold | Hnew]%elem_of_app Hid.
      * apply Huniq; [by apply Hkept | assumption].
      * apply list_elem_of_singleton in Hnew as ->. cbn [iv_id] in Hid. lia.
    + rewrite weatherEffect_current, weatherEffect_cycles, list_lookup_alter_eq,
        new_cycle_lookup.
      cbn. intros [= Heq]. lia.
  - by rewrite weatherEffect_now, weatherCleanup_now.
Qed.

(** The reload timer comes due: the page is booted again. *)
Lemma fire_reload (iv : Interval) (a : App) (rid : nat) (d : N) :
  armed_at a rid d -> iv_id iv = rid -> now a = d ->
  fire iv a = boot (platform a) (localStorage a) d (issued a).
Proof.
  intros (_ & _ & Hin & Huniq & _) Hid Hnow. unfold fire.
  destruct (list_find _ _) as [[i cur]|] eqn:Hfind.
  - apply list_find_Some in Hfind as (Hcur & Hsame & _).
    apply list_elem_of_lookup_2 in Hcur.
    assert (cur = mkInterval rid reloadPage 60000 d) as ->
      by (apply Huniq; [assumption | congruence]).
    cbn [iv_due iv_callback iv_id iv_period]. rewrite <- Hnow, N.eqb_refl.
    reflexivity.
  - apply list_find_None in Hfind. rewrite Forall_forall in Hfind.
    destruct (Hfind _ Hin). cbn [iv_id]. congruence.
Qed.

(** Any other timer leaves the reload timer as it is. *)
Lemma fire_other (iv : Interval) (a : App) (rid : nat) (d : N) :
  timers_wf a -> armed_at a rid d -> iv_id iv <> rid \/ now a <> d ->
  armed_at (fire iv a) rid d
  /\ platform (fire iv a) = platform a
  /\ localStorage (fire iv a) = localStorage a
  /\ now (fire iv a) = now a
  /\ mounted (fire iv a) = mounted a.
Proof.
  intros (_ & Hall & _) Harmed Hwhy. unfold fire.
  destruct (list_find _ _) as [[i cur]|] eqn:Hfind; [|by split].
  apply list_find_Some in Hfind as (Hcur & Hsame & _).
  destruct (_ =? _)%N eqn:Hdue; [|by split].
  apply N.eqb_eq in Hdue.
  pose proof Harmed as (Hrid & Hlt & Hin & Huniq & Hother).
  pose proof (list_elem_of_lookup_2 _ _ _ Hcur) as Hcur_in.
  assert (Hne : iv_id cur <> rid).
  { intros Heq. pose proof (Huniq cur Hcur_in Heq) as ->.
    cbn [iv_due iv_id] in Hdue, Hsame. destruct Hwhy; congruence. }
  destruct (Hall cur Hcur_in) as [(_ & _ & Hreload) | (Hcallback & _)]; [congruence|].
  rewrite Hcallback.
  match goal with |- context [put_intervals ?l a] => set (rescheduled := put_intervals l a) end.
  assert (Hres : armed_at rescheduled rid d).
  { split; [assumption|]. split; [assumption|]. split; [|split; [|assumption]].
    - apply list_elem_of_lookup_1 in Hin as [j Hj].
      apply (list_elem_of_lookup_2 _ j).
      unfold rescheduled. change (intervals (put_intervals ?l a)) with l.
      rewrite list_lookup_insert_ne; [assumption|].
      intros <-. rewrite Hcur in Hj. injection Hj as ->. by cbn [iv_id] in Hne.
    - intros x [j Hx]%list_elem_of_lookup_1 Hid.
      unfold rescheduled in Hx. change (intervals (put_intervals ?l a)) with l in Hx.
      apply list_lookup_insert_Some in Hx as [(_ & <- & _) | (_ & Hx)].
      + by cbn [iv_id] in Hid.
      + apply Huniq; [by apply list_elem_of_lookup_2 in Hx | assumption]. }
  split; [apply (armed_same rescheduled); [apply autoRefreshTick_timerView | assumption]|].
  destruct (autoRefreshTick_storage (current a) rescheduled) as [-> ->].
  rewrite autoRefreshTick_now.
  pose proof (autoRefreshTick_timerView (current a) rescheduled) as Hview.
  unfold timerView in Hview. injection Hview as _ _ _ _ ->.
  by repeat split.
Qed.

Lemma fire_booted (iv : Interval) (p : Platform) (ls : Storage) (t : N)
  (log : list Request) :
  fire iv (boot p ls t log) = boot p ls t log.
Proof.
  apply fire_not_due. rewrite boot_unfold. cbn zeta. cbn [intervals runtime now].
  intros cur [-> | [-> | Hin%elem_of_nil]%elem_of_cons]%elem_of_cons; [| |done];
    cbn [iv_due]; lia.
Qed.

Lemma fires_booted (l : list Interval) (p : Platform) (ls : Storage) (t : N)
  (log : list Request) :
  foldl (fun acc iv => fire iv acc) (boot p ls t log) l = boot p ls t log.
Proof. induction l as [|iv l IH]; [reflexivity|]. cbn [foldl]. by rewrite fire_booted. Qed.

Lemma fires_early (l : list Interval) (a : App) (rid : nat) (d : N) :
  timers_wf a -> armed_at a rid d -> now a <> d ->
  timers_wf (foldl (fun acc iv => fire iv acc) a l)
  /\ armed_at (foldl (fun acc iv => fire iv acc) a l) rid d
  /\ platform (foldl (fun acc iv => fire iv acc) a l) = platform a
  /\ localStorage (foldl (fun acc iv => fire iv acc) a l) = localStorage a
  /\ now (foldl (fun acc iv => fire iv acc) a l) = now a
  /\ mounted (foldl (fun acc iv => fire iv acc) a l) = mounted a.
Proof.
  revert a. induction l as [|iv l IH]; intros a Hwf Harmed Hnow; [by split|].
  cbn [foldl].
  destruct (fire_other iv a rid d Hwf Harmed (or_intror Hnow))
    as (Harmed' & Hp & Hs & Hn & Hm).
  destruct (IH (fire iv a) (fire_timers iv a Hwf) Harmed')
    as (Hwf'' & Harmed'' & Hp' & Hs' & Hn' & Hm'); [congruence|].
  split; [assumption|]. split; [assumption|]. repeat split; congruence.
Qed.

Lemma fires_due (l : list Interval) (a : App) (rid : nat) (d : N) :
  timers_wf a -> armed_at a rid d -> now a = d ->
  (exists iv, iv ∈ l /\ iv_id iv = rid) ->
  exists log',
    foldl (fun acc iv => fire iv acc) a l = boot (platform a) (localStorage a) d log'.
Proof.
  revert a. induction l as [|iv l IH]; intros a Hwf Harmed Hnow (x & Hx & Hid).
  - by apply elem_of_nil in Hx.
  - cbn [foldl]. destruct (decide (iv_id iv = rid)) as [Heq | Hne].
    + rewrite (fire_reload iv a rid d Harmed Heq Hnow), fires_booted. by eexists.
    + destruct (fire_other iv a rid d Hwf Harmed (or_introl Hne))
        as (Harmed' & Hp & Hs & Hn & Hm).
      destruct (IH (fire iv a) (fire_timers iv a Hwf) Harmed') as [log' Hlog'].
      * congruence.
      * exists x. split; [|assumption].
        apply elem_of_cons in Hx as [-> | Hx]; [congruence | assumption].
      * exists log'. by rewrite Hlog', Hp, Hs.
Qed.

Lemma tick_reloads (a : App) (rid : nat) (d : N) :
  timers_wf a -> armed_at a rid d -> N.succ (now a) = d ->
  exists log', tick a = boot (platform a) (localStorage a) d log'.
Proof.
  intros Hwf Harmed Hd. unfold tick.
  apply (fires_due (intervals (put_now (N.succ (now a)) a))
           (put_now (N.succ (now a)) a) rid d).
  - by apply (timers_same a).
  - by apply (armed_same a).
  - exact Hd.
  - exists (mkInterval rid reloadPage 60000 d). split; [|reflexivity].
    by destruct Harmed as (_ & _ & Hin & _).
Qed.

Lemma tick_early (a : App) (rid : nat) (d : N) :
  timers_wf a -> armed_at a rid d -> N.succ (now a) <> d ->
  timers_wf (tick a)
  /\ armed_at (tick a) rid d
  /\ platform (tick a) = platform a
  /\ localStorage (tick a) = localStorage a
  /\ now (tick a) = N.succ (now a)
  /\ mounted (tick a) = mounted a.
Proof.
  intros Hwf Harmed Hd. unfold tick.
  apply (fires_early (intervals (put_now (N.succ (now a)) a))
           (put_now (N.succ (now a)) a) rid d).
  - by apply (timers_same a).
  - by apply (armed_same a).
  - exact Hd.
Qed.

Lemma elapse_until (n : nat) (a : App) (rid : nat) (d : N) :
  timers_wf a -> armed_at a rid d -> (now a + N.of_nat n < d)%N ->
  timers_wf (Nat.iter n tick a)
  /\ armed_at (Nat.iter n tick a) rid d
  /\ platform (Nat.iter n tick a) = platform a
  /\ localStorage (Nat.iter n tick a) = localStorage a
  /\ now (Nat.iter n tick a) = (now a + N.of_nat n)%N
  /\ mounted (Nat.iter n tick a) = mounted a.
Proof.
  intros Hwf Harmed. induction n as [|n IH]; intros Hd.
  - change (Nat.iter 0 tick a) with a.
    split; [assumption|]. split; [assumption|]. repeat split. lia.
  - rewrite Nat.iter_succ.
    destruct IH as (Hwf' & Harmed' & Hp & Hs & Hn & Hm); [lia|].
    destruct (tick_early (Nat.iter n tick a) rid d Hwf' Harmed')
      as (Hwf'' & Harmed'' & Hp' & Hs' & Hn' & Hm'); [lia|].
    split; [assumption|]. split; [assumption|].
    split; [congruence|]. split; [congruence|]. split; [|congruence].
    rewrite Hn', Hn. lia.
Qed.

Lemma reload_at (a : App) (rid : nat) (d : N) :
  timers_wf a -> armed_at a rid d -> (now a < d)%N ->
  exists log',
    Nat.iter (N.to_nat (d - now a)) tick a = boot (platform a) (localStorage a) d log'.
Proof.
  intros Hwf Harmed Hd.
  replace (N.to_nat (d - now a)) with (S (N.to_nat (d - now a - 1))) by lia.
  rewrite Nat.iter_succ.
  destruct (elapse_until (N.to_nat (d - now a - 1)) a rid d Hwf Harmed)
    as (Hwf' & Harmed' & Hp & Hs & Hn & _); [lia|].
  destruct (tick_reloads _ rid d Hwf' Harmed') as [log' Hlog']; [rewrite Hn; lia|].
  exists log'. by rewrite Hlog', Hp, Hs.
Qed.

Lemma tick_armed (a : App) : timers_wf a -> reload_armed a -> reload_armed (tick a).
Proof.
  intros Hwf Ha Hm.
  destruct (mounted a) eqn:Hmounted.
  - destruct (Ha Hmounted) as (rid & d & Harmed & Hd).
    destruct (decide (N.succ (now a) = d)) as [Hdue | Hearly].
    + destruct (tick_reloads a rid d Hwf Harmed Hdue) as [log' ->].
      exists 2, (d + 60000)%N. split; [apply boot_armed_at|]. rewrite boot_now. lia.
    + destruct (tick_early a rid d Hwf Harmed Hearly) as (_ & Harmed' & _ & _ & Hn & _).
      exists rid, d. split; [assumption|]. rewrite Hn. lia.
  - destruct Hwf as (_ & _ & Hoff). exfalso.
    assert (Heq : tick a = put_now (N.succ (now a)) a).
    { apply tick_quiet. intros cur Hcur. rewrite (Hoff Hmounted) in Hcur.
      by apply elem_of_nil in Hcur. }
    rewrite Heq in Hm. change (mounted a = true) in Hm. congruence.
Qed.

Lemma elapse_armed (dt : nat) (a : App) :
  timers_wf a -> reload_armed a -> reload_armed (Nat.iter dt tick a).
Proof.
  intros Hwf Ha. induction dt as [|dt IH]; [assumption|].
  rewrite Nat.iter_succ. apply tick_armed; [by apply elapse_timers | assumption].
Qed.

Lemma step_armed (e : Event) (a : App) :
  timers_wf a -> reload_armed a -> reload_armed (step e a).
Proof.
  intros Hwf Ha. destruct e; cbn [step].
  - destruct (mounted a) eqn:Hm; [|assumption]. by apply commit_armed.
  - destruct (mounted a) eqn:Hm; [|assumption].
    apply commit_armed; try assumption; cbn [handle]; unfold handleSearch;
      by destruct (negb _).
  - destruct (mounted a) eqn:Hm; [|assumption].
    apply commit_armed; try assumption; cbn [handle];
      by rewrite handleLocationSelection_unfold.
  - destruct (mounted a) eqn:Hm; [|assumption].
    apply commit_armed; try assumption; cbn [handle];
      by rewrite handleLocationSelection_unfold.
  - destruct (mounted a) eqn:Hm; [|assumption]. by apply commit_armed.
  - destruct (mounted a) eqn:Hm; [|assumption]. by apply commit_armed.
  - unfold settle. destruct (pending a !! rid) as [r|]; [|assumption].
    destruct r, response; try assumption.
    + apply (reload_armed_same a); [| |assumption];
        (destruct (mounted a); [|reflexivity]); unfold handleSearch_settled;
        (destruct outcome as [results|error]; [destruct (_ =? _)|]); reflexivity.
    + apply (reload_armed_same a); [| |assumption]; unfold fetchWeather_settled;
        by destruct outcome, (negb (cycle_isActive _ _)), isAutoRefresh.
  - by apply elapse_armed.
  - destruct (mounted a) eqn:Hm; [|assumption]. intros Hon.
    assert (Hoff : mounted (unmount a) = false) by reflexivity. congruence.
Qed.

Lemma run_armed (es : list Event) (a : App) :
  timers_wf a -> reload_armed a -> reload_armed (run es a).
Proof.
  revert a. induction es as [|e es IH]; intros a Hwf Ha; [assumption|].
  cbn [run foldl]. apply IH; [by apply step_timers | by apply step_armed].
Qed.

Lemma step_platform (e : Event) (a : App) : platform (step e a) = platform a.
Proof.
  destruct e; cbn [step].
  - destruct (mounted a); [|reflexivity]. by rewrite (proj2 (commit_storage _ _)).
  - destruct (mounted a); [|reflexivity]. rewrite (proj2 (commit_storage _ _)).
    cbn [handle]. unfold handleSearch. by destruct (negb _).
  - destruct (mounted a); [|reflexivity]. rewrite (proj2 (commit_storage _ _)).
    cbn [handle]. by rewrite handleLocationSelection_unfold.
  - destruct (mounted a); [|reflexivity]. rewrite (proj2 (commit_storage _ _)).
    cbn [handle]. by rewrite handleLocationSelection_unfold.
  - destruct (mounted a); [|reflexivity]. by rewrite (proj2 (commit_storage _ _)).
  - destruct (mounted a); [|reflexivity]. by rewrite (proj2 (commit_storage _ _)).
  - unfold settle. destruct (pending a !! rid) as [r|]; [|reflexivity].
    destruct r, response; try reflexivity.
    + destruct (mounted a); [|reflexivity]. unfold handleSearch_settled.
      destruct outcome as [results|error]; [destruct (_ =? _)|]; reflexivity.
    + unfold fetchWeather_settled.
      by destruct outcome, (negb (cycle_isActive _ _)), isAutoRefresh.
  - apply elapse_storage.
  - destruct (mounted a); [|reflexivity]. unfold unmount, reloadCleanup.
    transitivity (platform (weatherCleanup (current a) a));
      [by destruct (reloadInterval _) | apply weatherCleanup_storage].
Qed.

Lemma run_platform (es : list Event) (a : App) : platform (run es a) = platform a.
Proof.
  revert a. induction es as [|e es IH]; intros a; [reflexivity|].
  cbn [run foldl]. change (platform (run es (step e a)) = platform a).
  by rewrite IH, step_platform.
Qed.

(** X17.  The page reload is unconditional.  On every page reached from
    its first render, while the component is mounted the reload timer is
    alive and due within the next 60000 units of time; when that time has
    passed the page has been loaded again, whatever it was doing: it is
    the page a first render gives over the storage as it then is.  The
    search results, the forecast, the selected day and a choice of
    imperial units are gone with the old page; only what a selection
    wrote to storage comes back. *)
Theorem page_reloads_within_a_minute (p : Platform) (ls : Storage) (t : N)
  (log : list Request) (es : list Event) :
  let a := run es (boot p ls t log) in
  mounted a = true ->
  exists d log',
    (now a < d <= now a + 60000)%N
    /\ step (Elapsed (N.to_nat (d - now a))) a = boot p (localStorage a) d log'
    /\ units (boot p (localStorage a) d log') = metric
    /\ searchResults (boot p (localStorage a) d log') = []
    /\ weatherData (boot p (localStorage a) d log') = None
    /\ selectedDay (boot p (localStorage a) d log') = None.
Proof.
  cbn zeta. intros Hm.
  pose proof (run_timers es _ (boot_timers p ls t log)) as Hwf.
  destruct (run_armed es _ (boot_timers p ls t log) (boot_armed p ls t log) Hm)
    as (rid & d & Harmed & Hd).
  destruct (reload_at _ rid d Hwf Harmed) as [log' Hlog']; [lia|].
  exists d, log'. split; [assumption|]. split.
  - cbn [step]. rewrite Hlog'. by rewrite run_platform, (proj2 (boot_storage p ls t log)).
  - by rewrite boot_unfold.
Qed.

Lemma page_reloads_within_a_minute_witness :
  mounted (run [UnitsChanged imperial] (boot sample_platform empty_storage 0 [])) = true
  /\ exists d log',
       (now (run [UnitsChanged imperial] (boot sample_platform empty_storage 0 [])) < d
        <= now (run [UnitsChanged imperial] (boot sample_platform empty_storage 0 []))
           + 60000)%N
       /\ units (boot sample_platform
                   (localStorage (run [UnitsChanged imperial]
                                    (boot sample_platform empty_storage 0 [])))
                   d log') = metric.
Proof.
  assert (Hm : mounted (run [UnitsChanged imperial]
                 (boot sample_platform empty_storage 0 [])) = true)
    by (vm_compute; reflexivity).
  split; [exact Hm|].
  destruct (page_reloads_within_a_minute sample_platform empty_storage 0 []
              [UnitsChanged imperial] Hm) as (d & log' & Hd & _ & Hunits & _).
  exists d, log'. split; [exact Hd | exact Hunits].
Defined.

(** ** Recovery by auto-refresh *)







